(** * StokWELL ledger: users, stokvels, contributions

    A shallow embedding of the ledger core of the repository
    ([utils.py], [user_manager.py], [stokvel_manager.py]) and of its
    command-line front end ([stokwell_cli_2.py]), the properties the
    specification states about the ledger, and further properties the code
    shows.

    Conventions.
    - The Python functions mutate the dictionary [data] they are handed and
      may leave through an exception; they are embedded in a state and
      exception monad over a [world] that holds the in-memory dictionary,
      the contents of the data file and the wall clock.  A raised exception
      keeps every mutation made before it, as in Python.
    - Dictionaries keyed by strings are [gmap string _]; Python lists are
      [list]; dictionaries used as records are records.
    - Amounts and balances are Python numbers.  The ledger uses the literal
      [0], [+], [<=], the built-in [sum] and the [:.2f] rendering of a
      number, and the specification compares numbers with [==]; the
      development is stated over any type with these operations
      ([Number]).  Two instances are given: Python integers, whose
      rendering goes through [float] and raises [OverflowError] beyond the
      range of binary64, and binary64 floats, on which [sum] is the
      compensated summation of CPython and [==] is not reflexive.  A
      ledger holds numbers of one of the two types.
    - [hashlib.sha256] is embedded bit for bit (FIPS 180-4), so that the
      example states are the ones the program builds. *)

From Stdlib Require Import ZArith Ascii Floats.
From stdpp Require Import gmap strings list fin_maps finite.

Open Scope Z_scope.

(** ** hashlib.sha256 *)

Module SHA256.

Definition w32 (x : Z) : Z := x mod 2 ^ 32.

Definition add32 (x y : Z) : Z := w32 (x + y).

Definition rotr (n x : Z) : Z :=
  Z.lor (Z.shiftr x n) (w32 (Z.shiftl x (32 - n))).

Definition not32 (x : Z) : Z := 2 ^ 32 - 1 - x.

Definition Ch (x y z : Z) : Z :=
  Z.lxor (Z.land x y) (Z.land (not32 x) z).

Definition Maj (x y z : Z) : Z :=
  Z.lxor (Z.lxor (Z.land x y) (Z.land x z)) (Z.land y z).

Definition Sigma0 (x : Z) : Z :=
  Z.lxor (Z.lxor (rotr 2 x) (rotr 13 x)) (rotr 22 x).

Definition Sigma1 (x : Z) : Z :=
  Z.lxor (Z.lxor (rotr 6 x) (rotr 11 x)) (rotr 25 x).

Definition sigma0 (x : Z) : Z :=
  Z.lxor (Z.lxor (rotr 7 x) (rotr 18 x)) (Z.shiftr x 3).

Definition sigma1 (x : Z) : Z :=
  Z.lxor (Z.lxor (rotr 17 x) (rotr 19 x)) (Z.shiftr x 10).

(** The constants are the leading 32 fractional bits of the square roots
    (initial hash value) and of the cube roots (round constants) of the
    first primes. *)
Definition primes : list Z :=
  [2; 3; 5; 7; 11; 13; 17; 19; 23; 29; 31; 37; 41; 43; 47; 53;
   59; 61; 67; 71; 73; 79; 83; 89; 97; 101; 103; 107; 109; 113; 127; 131;
   137; 139; 149; 151; 157; 163; 167; 173; 179; 181; 191; 193; 197; 199;
   211; 223; 227; 229; 233; 239; 241; 251; 257; 263; 269; 271; 277; 281;
   283; 293; 307; 311].

Fixpoint cube_root_bits (bits : nat) (n r : Z) : Z :=
  match bits with
  | O => r
  | S i =>
      let r' := r + 2 ^ Z.of_nat i in
      cube_root_bits i n (if r' * r' * r' <=? n then r' else r)
  end.

Definition cube_root (n : Z) : Z := cube_root_bits 40 n 0.

Definition H0 : list Z :=
  Eval vm_compute in map (fun p => w32 (Z.sqrt (p * 2 ^ 64))) (take 8 primes).

Definition K : list Z :=
  Eval vm_compute in map (fun p => w32 (cube_root (p * 2 ^ 96))) primes.

(** Padding: a single 1 bit, zeros up to 56 mod 64 bytes, and the bit
    length of the message as a 64-bit big-endian number. *)
Definition big_endian (nbytes : nat) (x : Z) : list Z :=
  map (fun i => Z.shiftr x (8 * Z.of_nat i) mod 256) (rev (seq 0 nbytes)).

Definition pad (msg : list Z) : list Z :=
  let len := Z.of_nat (List.length msg) in
  let zeros := Z.to_nat ((55 - len) mod 64) in
  msg ++ [128] ++ repeat 0 zeros ++ big_endian 8 (8 * len).

Fixpoint word_of_bytes (acc : Z) (bs : list Z) : Z :=
  match bs with
  | [] => acc
  | b :: bs' => word_of_bytes (acc * 256 + b) bs'
  end.

Fixpoint words (nwords : nat) (bs : list Z) : list Z :=
  match nwords with
  | O => []
  | S n => word_of_bytes 0 (take 4 bs) :: words n (drop 4 bs)
  end.

(** Message schedule; [recent] holds the words computed so far, the most
    recent first. *)
Fixpoint schedule (steps : nat) (recent : list Z) : list Z :=
  match steps with
  | O => rev recent
  | S n =>
      let w i := nth i recent 0 in
      let next :=
        add32 (add32 (sigma1 (w 1%nat)) (w 6%nat))
              (add32 (sigma0 (w 14%nat)) (w 15%nat)) in
      schedule n (next :: recent)
  end.

Record state := State { a : Z; b : Z; c : Z; d : Z; e : Z; f : Z; g : Z; h : Z }.

Definition state_of_list (l : list Z) : state :=
  let x i := nth i l 0 in
  State (x 0%nat) (x 1%nat) (x 2%nat) (x 3%nat)
        (x 4%nat) (x 5%nat) (x 6%nat) (x 7%nat).

Definition round (s : state) (kw : Z * Z) : state :=
  let T1 :=
    add32 (add32 (add32 (h s) (Sigma1 (e s))) (Ch (e s) (f s) (g s)))
          (add32 (fst kw) (snd kw)) in
  let T2 := add32 (Sigma0 (a s)) (Maj (a s) (b s) (c s)) in
  State (add32 T1 T2) (a s) (b s) (c s) (add32 (d s) T1) (e s) (f s) (g s).

Definition compress (s : state) (block : list Z) : state :=
  let W := schedule 48 (rev (words 16 block)) in
  let t := fold_left round (combine K W) s in
  State (add32 (a s) (a t)) (add32 (b s) (b t)) (add32 (c s) (c t))
        (add32 (d s) (d t)) (add32 (e s) (e t)) (add32 (f s) (f t))
        (add32 (g s) (g t)) (add32 (h s) (h t)).

Fixpoint blocks (nblocks : nat) (s : state) (bs : list Z) : state :=
  match nblocks with
  | O => s
  | S n => blocks n (compress s (take 64 bs)) (drop 64 bs)
  end.

Definition digest (msg : list Z) : state :=
  let padded := pad msg in
  blocks (Nat.div (List.length padded) 64) (state_of_list H0) padded.

Definition hex_digit (x : Z) : ascii :=
  ascii_of_N (Z.to_N (if x <? 10 then 48 + x else 87 + x)).

Definition hex32 (x : Z) : list ascii :=
  map (fun i => hex_digit (Z.shiftr x (4 * Z.of_nat i) mod 16))
      (rev (seq 0 8)).

Definition hexdigest (s : state) : string :=
  String.string_of_list_ascii
    (hex32 (a s) ++ hex32 (b s) ++ hex32 (c s) ++ hex32 (d s) ++
     hex32 (e s) ++ hex32 (f s) ++ hex32 (g s) ++ hex32 (h s)).

(** [password.encode()]: a [string] is the sequence of its bytes. *)
Definition encode (s : string) : list Z :=
  map (fun ch => Z.of_N (N_of_ascii ch)) (String.list_ascii_of_string s).

End SHA256.

(** ** utils.py *)

Definition hash_password (password : string) : string :=
  SHA256.hexdigest (SHA256.digest (SHA256.encode password)).

Definition verify_password (password hashed : string) : bool :=
  String.eqb (hash_password password) hashed.

(** *** Passwords and digests as numbers

    The bits of a string, the number they spell, and the password made of
    [n] letters [a]; they serve to count passwords against digests. *)
Definition ascii_bits (ch : ascii) : list bool :=
  let 'Ascii b0 b1 b2 b3 b4 b5 b6 b7 := ch in [b0; b1; b2; b3; b4; b5; b6; b7].

Fixpoint string_bits (s : string) : list bool :=
  match s with
  | EmptyString => []
  | String ch rest => ascii_bits ch ++ string_bits rest
  end.

Fixpoint bits_value (bits : list bool) : nat :=
  match bits with
  | [] => 0
  | b :: rest => (if b then 1 else 0) + 2 * bits_value rest
  end.

Definition unary (n : nat) : string :=
  String.string_of_list_ascii (repeat "a"%char n).

(** ** Python numbers

    The numeric type of amounts and balances, with the operations the
    ledger and the specification apply to it. *)

Class Number (A : Type) := {
  num_zero : A;                     (* the literal [0] *)
  num_add : A -> A -> A;            (* [x + y] *)
  num_le : A -> A -> bool;          (* [x <= y] *)
  num_eq : A -> A -> bool;          (* [x == y] *)
  num_sum : list A -> A;            (* the built-in [sum(xs)] *)
  format_2f : A -> option string    (* [f"{x:.2f}"], [None] when it raises
                                       [OverflowError] *)
}.

(** What [balance += amount] has computed once the items of [xs] have been
    added one after the other to a balance that started at [0]. *)
Definition running_total {A} `{Number A} (xs : list A) : A :=
  fold_left num_add xs num_zero.

(** A numeric type on which [sum] adds from left to right and [==] holds
    between a number and itself: the integers, not the floats. *)
Definition exact_sums (A : Type) `{Number A} : Prop :=
  (∀ xs : list A, num_sum xs = running_total xs) ∧
  (∀ x : A, num_eq x x = true).

(** A numeric type every value of which [:.2f] renders: the floats, not
    the integers. *)
Class AlwaysRenders (A : Type) `{Number A} : Prop :=
  always_renders : ∀ x : A, is_Some (format_2f x).

(** [format_currency] *)
Definition format_currency {A} `{Number A} (amount : A) : option string :=
  amount_2f ← format_2f amount; Some ("R" +:+ amount_2f).

(** [validate_amount]; [float] is the built-in conversion, [None] standing
    for its [ValueError]. *)
Definition validate_amount {A} `{Number A} (float : string -> option A)
    (amount_str : string) : option A * option string :=
  match float amount_str with
  | Some amount =>
      if num_le amount num_zero then (None, Some "Amount must be positive")
      else (Some amount, None)
  | None => (None, Some "Invalid amount format")
  end.

(** *** Decimal rendering *)

Definition digit (n : Z) : ascii := ascii_of_N (Z.to_N (48 + n)).

Fixpoint decimal_go (fuel : nat) (n : Z) (acc : string) : string :=
  match fuel with
  | O => acc
  | S k =>
      let acc' := String (digit (n mod 10)) acc in
      if n / 10 =? 0 then acc' else decimal_go k (n / 10) acc'
  end.

(** [str(n)] for [0 <= n]. *)
Definition decimal (n : Z) : string :=
  decimal_go (S (Z.to_nat (Z.log2 n))) n "".

(** [str(n).zfill(width)] for [0 <= n]. *)
Definition zfill (width : nat) (n : Z) : string :=
  let s := decimal n in
  String.string_of_list_ascii (repeat "0"%char (width - String.length s))
    +:+ s.

(** The number of hundredths nearest to [m * 2 ^ e], a tie going to the
    even one. *)
Definition hundredths (m : positive) (e : Z) : Z :=
  let n := Z.pos m * 100 in
  if 0 <=? e then n * 2 ^ e
  else
    let d := 2 ^ (- e) in
    let q := n / d in
    let r := n mod d in
    if (d <? 2 * r) || ((2 * r =? d) && Z.odd q) then q + 1 else q.

Definition sign_text (negative : bool) : string :=
  if negative then "-" else "".

(** [f"{x:.2f}"] for a binary64 value [x]: the decimal with two digits
    after the point that is nearest to [x], and [inf] and [nan]. *)
Definition binary64_2f (x : spec_float) : string :=
  match x with
  | S754_nan => "nan"
  | S754_infinity s => sign_text s +:+ "inf"
  | S754_zero s => sign_text s +:+ "0.00"
  | S754_finite s m e =>
      let h := hundredths m e in
      sign_text s +:+ decimal (h / 100) +:+ "." +:+ zfill 2 (h mod 100)
  end.

(** *** Python integers

    [float(n)]: the binary64 value nearest to [n], a tie going to the even
    mantissa; [None] for the [OverflowError] of an integer beyond the
    range of binary64. *)
Definition float_of_int (n : Z) : option spec_float :=
  match binary_normalize prec emax n 0 false with
  | S754_infinity _ => None
  | x => Some x
  end.

(** On an [int], [:.2f] renders [float(n)]. *)
#[export] Instance int_number : Number Z := {
  num_zero := 0;
  num_add := Z.add;
  num_le := Z.leb;
  num_eq := Z.eqb;
  num_sum := fun xs => fold_left Z.add xs 0;
  format_2f := fun n => binary64_2f <$> float_of_int n
}.

(** *** Python floats

    One step of the compensated summation of [sum] (Neumaier's): the
    running sum and the rounding errors collected so far. *)
Definition compensated_step (acc : float * float) (x : float)
  : float * float :=
  let '(f_result, c) := acc in
  let t := (f_result + x)%float in
  (t,
   if (abs x <=? abs f_result)%float
   then (c + ((f_result - t) + x))%float
   else (c + ((x - t) + f_result))%float).

(** [sum(xs)] for a list of floats, as CPython computes it from version
    3.12 on: the first item is added to the integer [0], the others with
    compensation, and the compensation is added at the end when it is
    finite and not zero.  (Up to version 3.11 the items were added from
    left to right, which is [running_total].) *)
Definition float_sum (xs : list float) : float :=
  match xs with
  | [] => 0%float
  | x :: rest =>
      let '(f_result, c) :=
        fold_left compensated_step rest ((0 + x)%float, 0%float) in
      if negb (is_zero c) && is_finite c then (f_result + c)%float
      else f_result
  end.

(** Floats as amounts: what [float(amount_str)] returns.  The integer [0]
    the balances start from stands as [0.0], which is equal to it, adds
    like it and renders like it. *)
#[export] Instance float_number : Number float := {
  num_zero := 0%float;
  num_add := PrimFloat.add;
  num_le := PrimFloat.leb;
  num_eq := PrimFloat.eqb;
  num_sum := float_sum;
  format_2f := fun x => Some (binary64_2f (Prim2SF x))
}.

(** ** datetime *)

Record datetime := {
  year : Z; month : Z; day : Z;
  hour : Z; minute : Z; second : Z; microsecond : Z
}.

(** [dt.isoformat()] *)
Definition isoformat (dt : datetime) : string :=
  zfill 4 (year dt) +:+ "-" +:+ zfill 2 (month dt) +:+ "-" +:+ zfill 2 (day dt)
  +:+ "T" +:+ zfill 2 (hour dt) +:+ ":" +:+ zfill 2 (minute dt)
  +:+ ":" +:+ zfill 2 (second dt)
  +:+ (if microsecond dt =? 0 then "" else "." +:+ zfill 6 (microsecond dt)).

(** [dt.strftime('%Y-%m-%d %H:%M')], for a year of four digits. *)
Definition strftime_Ymd_HM (dt : datetime) : string :=
  zfill 4 (year dt) +:+ "-" +:+ zfill 2 (month dt) +:+ "-" +:+ zfill 2 (day dt)
  +:+ " " +:+ zfill 2 (hour dt) +:+ ":" +:+ zfill 2 (minute dt).

(** ** The data model: the dictionaries of [data] *)

Module Contribution.
Record t {A : Type} := Make { user : string; amount : A; date : string }.
Arguments t : clear implicits.
End Contribution.

Module Stokvel.
Record t {A : Type} := Make {
  members : list string;
  contributions : list (Contribution.t A);
  balance : A;
  created_date : string;
  created_by : string
}.
Arguments t : clear implicits.

Definition set_members {A} (s : t A) (ms : list string) : t A :=
  Make A ms (contributions s) (balance s) (created_date s) (created_by s).
Definition set_contributions {A} (s : t A) (cs : list (Contribution.t A)) : t A :=
  Make A (members s) cs (balance s) (created_date s) (created_by s).
Definition set_balance {A} (s : t A) (b : A) : t A :=
  Make A (members s) (contributions s) b (created_date s) (created_by s).
End Stokvel.

Module User.
Record t {A : Type} := Make {
  password : string;
  balance : A;
  transactions : list string;
  stokvels : list string
}.
Arguments t : clear implicits.

Definition set_balance {A} (u : t A) (b : A) : t A :=
  Make A (password u) b (transactions u) (stokvels u).
Definition set_transactions {A} (u : t A) (ts : list string) : t A :=
  Make A (password u) (balance u) ts (stokvels u).
Definition set_stokvels {A} (u : t A) (ss : list string) : t A :=
  Make A (password u) (balance u) (transactions u) ss.
End User.

Module Summary.
Record t {A : Type} := Make {
  name : string;
  balance : A;
  total_contributions : A;
  member_count : nat;
  members : list string;
  created_date : string;
  created_by : string
}.
Arguments t : clear implicits.
End Summary.

(** [data = {"users": {...}, "stokvels": {...}}] *)
Record Data {A : Type} := {
  users : gmap string (User.t A);
  stokvels : gmap string (Stokvel.t A)
}.
Arguments Data : clear implicits.

Definition empty_data {A} : Data A := {| users := ∅; stokvels := ∅ |}.

(** ** The world of a run

    [data] is the dictionary every function receives and mutates in place,
    [DATA_FILE] the contents of the data file ([None] while it does not
    exist), [clock] the successive readings of [datetime.now()] and [ticks]
    the number of readings taken so far. *)
Record world {A : Type} := World {
  data : Data A;
  DATA_FILE : option (Data A);
  clock : nat -> datetime;
  ticks : nat
}.
Arguments world : clear implicits.
Arguments World {A}.

(** The exceptions the ledger can leave through: a key that is missing
    from a dictionary, a number that is too large for [float]. *)
Inductive exn :=
| KeyError (key : string)
| OverflowError.

Inductive outcome (X : Type) :=
| Returns (x : X)
| Raises (e : exn).
Arguments Returns {X}.
Arguments Raises {X}.

(** Computations that read and write the world and may raise. *)
Definition M (A X : Type) : Type := world A -> outcome X * world A.

Definition ret {A X} (x : X) : M A X := fun w => (Returns x, w).

Definition raise {A X} (e : exn) : M A X := fun w => (Raises e, w).

Definition bind {A X Y} (m : M A X) (k : X -> M A Y) : M A Y :=
  fun w =>
    match m w with
    | (Returns x, w') => k x w'
    | (Raises e, w') => (Raises e, w')
    end.

Notation "x <- m ;; k" := (bind m (fun x => k))
  (at level 100, m at next level, right associativity).
Notation "m ;;; k" := (bind m (fun _ => k))
  (at level 100, right associativity).

Section Ledger.
Context {A : Type} `{Number A}.

(** *** Statements over [data] *)

Definition get_data : M A (Data A) := fun w => (Returns (data w), w).

Definition set_data (d : Data A) : M A unit :=
  fun w => (Returns tt, World d (DATA_FILE w) (clock w) (ticks w)).

(** [datetime.now()] *)
Definition datetime_now : M A datetime :=
  fun w =>
    (Returns (clock w (ticks w)),
     World (data w) (DATA_FILE w) (clock w) (S (ticks w))).

(** [k in d] *)
Definition contains {V} (d : gmap string V) (k : string) : bool :=
  match d !! k with
  | Some _ => true
  | None => false
  end.

(** [data["users"][username]], a [KeyError] when the key is missing. *)
Definition users_getitem (username : string) : M A (User.t A) :=
  d <- get_data ;;
  match users d !! username with
  | Some user => ret user
  | None => raise (KeyError username)
  end.

(** [data["stokvels"][stokvel_name]] *)
Definition stokvels_getitem (stokvel_name : string) : M A (Stokvel.t A) :=
  d <- get_data ;;
  match stokvels d !! stokvel_name with
  | Some stokvel => ret stokvel
  | None => raise (KeyError stokvel_name)
  end.

(** Writing a user or a stokvel back: the Python code mutates the
    dictionary stored under the key. *)
Definition users_setitem (username : string) (user : User.t A) : M A unit :=
  d <- get_data ;;
  set_data {| users := <[username := user]> (users d);
              stokvels := stokvels d |}.

Definition stokvels_setitem (stokvel_name : string) (stokvel : Stokvel.t A)
  : M A unit :=
  d <- get_data ;;
  set_data {| users := users d;
              stokvels := <[stokvel_name := stokvel]> (stokvels d) |}.

(** [f"{x:.2f}"] as a step of a function. *)
Definition format_spec_2f (x : A) : M A string :=
  match format_2f x with
  | Some text => ret text
  | None => raise OverflowError
  end.

(** ** data_manager.py *)

(** Modelled from the spec: [save_data] of [data_manager.py], which is not
    among the sources.  "Serializes and durably writes the entire state,
    overwriting the prior version"; the store is taken to be writable. *)
Definition save_data : M A unit :=
  fun w => (Returns tt, World (data w) (Some (data w)) (clock w) (ticks w)).

(** Modelled from the spec: [load_data] of [data_manager.py].  "Reads the
    durable store; if no store exists, returns an empty state". *)
Definition load_data (file : option (Data A)) : Data A :=
  match file with
  | Some d => d
  | None => empty_data
  end.

(** ** user_manager.py *)

Definition register_user (username password : string) : M A (bool * string) :=
  d <- get_data ;;
  if contains (users d) username then
    ret (false, "Username already exists!")
  else
    let hashed_password := hash_password password in
    users_setitem username
      {| User.password := hashed_password;
         User.balance := num_zero;
         User.transactions := [];
         User.stokvels := [] |} ;;;
    save_data ;;;
    ret (true, "User " +:+ username +:+ " registered successfully!").

(** A user dictionary always has its four keys, so [if user] only tests
    that the key was found. *)
Definition login_user (username password : string) : M A (bool * string) :=
  d <- get_data ;;
  match users d !! username with
  | Some user =>
      if verify_password password (User.password user) then
        ret (true, "Welcome back, " +:+ username +:+ "!")
      else ret (false, "Invalid credentials.")
  | None => ret (false, "Invalid credentials.")
  end.

Definition get_user_data (username : string) : M A (option (User.t A)) :=
  d <- get_data ;;
  ret (users d !! username).

Definition update_user_balance (username : string) (amount : A) : M A bool :=
  d <- get_data ;;
  if contains (users d) username then
    user <- users_getitem username ;;
    users_setitem username
      (User.set_balance user (num_add (User.balance user) amount)) ;;;
    save_data ;;;
    ret true
  else ret false.

Definition add_user_transaction (username transaction : string) : M A bool :=
  d <- get_data ;;
  if contains (users d) username then
    user <- users_getitem username ;;
    users_setitem username
      (User.set_transactions user (User.transactions user ++ [transaction])) ;;;
    save_data ;;;
    ret true
  else ret false.

(** ** stokvel_manager.py *)

Definition create_stokvel (stokvel_name current_user : string)
  : M A (bool * string) :=
  d <- get_data ;;
  if contains (stokvels d) stokvel_name then
    ret (false, "Stokvel already exists!")
  else
    now <- datetime_now ;;
    stokvels_setitem stokvel_name
      {| Stokvel.members := [current_user];
         Stokvel.contributions := [];
         Stokvel.balance := num_zero;
         Stokvel.created_date := isoformat now;
         Stokvel.created_by := current_user |} ;;;
    user <- users_getitem current_user ;;
    users_setitem current_user
      (User.set_stokvels user (User.stokvels user ++ [stokvel_name])) ;;;
    save_data ;;;
    ret (true,
         "Stokvel '" +:+ stokvel_name +:+ "' created and you have joined it!").

Definition contribute (stokvel_name : string) (amount : A)
    (current_user : string) : M A (bool * string) :=
  d <- get_data ;;
  if negb (contains (stokvels d) stokvel_name) then
    ret (false, "Stokvel not found.")
  else
    stokvel <- stokvels_getitem stokvel_name ;;
    if negb (bool_decide (current_user ∈ Stokvel.members stokvel)) then
      ret (false, "You are not a member of this stokvel.")
    else
      (* Add contribution *)
      stokvel <- stokvels_getitem stokvel_name ;;
      stokvels_setitem stokvel_name
        (Stokvel.set_balance stokvel
           (num_add (Stokvel.balance stokvel) amount)) ;;;
      now <- datetime_now ;;
      let contribution_record :=
        {| Contribution.user := current_user;
           Contribution.amount := amount;
           Contribution.date := isoformat now |} in
      stokvel <- stokvels_getitem stokvel_name ;;
      stokvels_setitem stokvel_name
        (Stokvel.set_contributions stokvel
           (Stokvel.contributions stokvel ++ [contribution_record])) ;;;
      (* Add transaction to user's history *)
      amount_2f <- format_spec_2f amount ;;
      now <- datetime_now ;;
      let transaction :=
        "Contributed R" +:+ amount_2f +:+ " to " +:+ stokvel_name
        +:+ " on " +:+ strftime_Ymd_HM now in
      user <- users_getitem current_user ;;
      users_setitem current_user
        (User.set_transactions user (User.transactions user ++ [transaction])) ;;;
      save_data ;;;
      amount_2f <- format_spec_2f amount ;;
      ret (true,
           "You contributed R" +:+ amount_2f +:+ " to " +:+ stokvel_name
           +:+ ".").

Definition get_stokvel_data (stokvel_name : string)
  : M A (option (Stokvel.t A)) :=
  d <- get_data ;;
  ret (stokvels d !! stokvel_name).

Definition get_user_stokvels (username : string) : M A (list string) :=
  d <- get_data ;;
  match users d !! username with
  | Some user_data => ret (User.stokvels user_data)
  | None => ret []
  end.

Definition join_stokvel (stokvel_name username : string)
  : M A (bool * string) :=
  d <- get_data ;;
  if negb (contains (stokvels d) stokvel_name) then
    ret (false, "Stokvel not found.")
  else
    stokvel <- stokvels_getitem stokvel_name ;;
    if bool_decide (username ∈ Stokvel.members stokvel) then
      ret (false, "You are already a member of this stokvel.")
    else
      stokvel <- stokvels_getitem stokvel_name ;;
      stokvels_setitem stokvel_name
        (Stokvel.set_members stokvel (Stokvel.members stokvel ++ [username])) ;;;
      user <- users_getitem username ;;
      users_setitem username
        (User.set_stokvels user (User.stokvels user ++ [stokvel_name])) ;;;
      save_data ;;;
      ret (true, "You have joined " +:+ stokvel_name +:+ "!").

(** A stokvel dictionary always has its five keys, so [if not stokvel]
    only tests that the key was found, and [.get(key, "Unknown")] finds
    its key. *)
Definition get_stokvel_summary (stokvel_name : string)
  : M A (option (Summary.t A)) :=
  d <- get_data ;;
  match stokvels d !! stokvel_name with
  | None => ret None
  | Some stokvel =>
      let total_contributions :=
        num_sum (map Contribution.amount (Stokvel.contributions stokvel)) in
      let member_count := List.length (Stokvel.members stokvel) in
      ret (Some
        {| Summary.name := stokvel_name;
           Summary.balance := Stokvel.balance stokvel;
           Summary.total_contributions := total_contributions;
           Summary.member_count := member_count;
           Summary.members := Stokvel.members stokvel;
           Summary.created_date := Stokvel.created_date stokvel;
           Summary.created_by := Stokvel.created_by stokvel |})
  end.

(** ** Runs of the ledger

    The operations a front end offers, and the states they reach from the
    empty store. *)
Inductive op :=
| RegisterUser (username password : string)
| LoginUser (username password : string)
| CreateStokvel (stokvel_name current_user : string)
| JoinStokvel (stokvel_name username : string)
| Contribute (stokvel_name : string) (amount : A) (current_user : string).

Definition exec (o : op) : M A (bool * string) :=
  match o with
  | RegisterUser username password => register_user username password
  | LoginUser username password => login_user username password
  | CreateStokvel stokvel_name current_user =>
      create_stokvel stokvel_name current_user
  | JoinStokvel stokvel_name username => join_stokvel stokvel_name username
  | Contribute stokvel_name amount current_user =>
      contribute stokvel_name amount current_user
  end.

(** The world an operation leaves behind, whether it returned or raised. *)
Definition step (w : world A) (o : op) : world A := snd (exec o w).

Definition run (ops : list op) (w : world A) : world A :=
  fold_left step ops w.

(** The world at start-up: no data file, [data = load_data()]. *)
Definition boot (clk : nat -> datetime) : world A :=
  World (load_data None) None clk 0%nat.

(** The password each username was first registered with in a run. *)
Definition registered (ops : list op) : gmap string string :=
  fold_left
    (fun m o =>
       match o with
       | RegisterUser username password =>
           if contains m username then m else <[username := password]> m
       | _ => m
       end)
    ops ∅.

(** *** The result values of the error taxonomy *)

Definition DuplicateUser : bool * string := (false, "Username already exists!").
Definition InvalidCredentials : bool * string := (false, "Invalid credentials.").
Definition DuplicateStokvel : bool * string := (false, "Stokvel already exists!").
Definition StokvelNotFound : bool * string := (false, "Stokvel not found.").
Definition NotAMember : bool * string :=
  (false, "You are not a member of this stokvel.").
Definition AlreadyMember : bool * string :=
  (false, "You are already a member of this stokvel.").

(** An operation succeeded when it returned with the flag [True]. *)
Definition succeeded (r : outcome (bool * string)) : Prop :=
  ∃ message, r = Returns (true, message).

(** An operation failed with an explicit result when it returned with
    the flag [False]. *)
Definition failed (r : outcome (bool * string)) : Prop :=
  ∃ message, r = Returns (false, message).

End Ledger.

Arguments op : clear implicits.

(** ** What the specification says, as predicates *)

Section Specification.
Context {A : Type} `{Number A}.

(** A stokvel's balance is the sum of the amounts contributed to it: the
    amounts added to [0] in the order of the contributions. *)
Definition balanced (d : Data A) : Prop :=
  ∀ s st, stokvels d !! s = Some st →
    Stokvel.balance st =
    running_total (map Contribution.amount (Stokvel.contributions st)).

(** Every stokvel a user lists exists and lists the user as a member. *)
Definition consistent (d : Data A) : Prop :=
  ∀ u usr s, users d !! u = Some usr → s ∈ User.stokvels usr →
    ∃ st, stokvels d !! s = Some st ∧ u ∈ Stokvel.members st.

(** The record and the transaction string one contribution adds; the two
    timestamps are the two readings of the clock. *)
Definition contribution_record (w : world A) (a : A) (u : string)
  : Contribution.t A :=
  {| Contribution.user := u;
     Contribution.amount := a;
     Contribution.date := isoformat (clock w (ticks w)) |}.

(** [amount_2f] is the amount as [:.2f] has rendered it. *)
Definition transaction_text (w : world A) (s amount_2f : string) : string :=
  "Contributed R" +:+ amount_2f +:+ " to " +:+ s +:+ " on "
  +:+ strftime_Ymd_HM (clock w (S (ticks w))).

Definition confirmation_text (s amount_2f : string) : string :=
  "You contributed R" +:+ amount_2f +:+ " to " +:+ s +:+ ".".

Definition stokvel_after_contribution (w : world A) (a : A) (u : string)
    (st : Stokvel.t A) : Stokvel.t A :=
  {| Stokvel.members := Stokvel.members st;
     Stokvel.contributions :=
       Stokvel.contributions st ++ [contribution_record w a u];
     Stokvel.balance := num_add (Stokvel.balance st) a;
     Stokvel.created_date := Stokvel.created_date st;
     Stokvel.created_by := Stokvel.created_by st |}.

Definition new_stokvel (w : world A) (creator : string) : Stokvel.t A :=
  {| Stokvel.members := [creator];
     Stokvel.contributions := [];
     Stokvel.balance := num_zero;
     Stokvel.created_date := isoformat (clock w (ticks w));
     Stokvel.created_by := creator |}.

Definition new_user (password : string) : User.t A :=
  {| User.password := hash_password password;
     User.balance := num_zero;
     User.transactions := [];
     User.stokvels := [] |}.

(** The change each operation makes when it is applied in full, following
    the wording of the specification (sections 4.3 and 4.4); a
    contribution whose amount has no rendering has no transaction string
    to append. *)
Definition applied (o : op A) (w : world A) : option (Data A) :=
  let d := data w in
  match o with
  | RegisterUser u p =>
      Some {| users := <[u := new_user p]> (users d);
              stokvels := stokvels d |}
  | LoginUser _ _ => Some d
  | CreateStokvel s c =>
      Some {| users :=
                alter (λ usr, User.set_stokvels usr (User.stokvels usr ++ [s]))
                      c (users d);
              stokvels := <[s := new_stokvel w c]> (stokvels d) |}
  | JoinStokvel s u =>
      Some {| users :=
                alter (λ usr, User.set_stokvels usr (User.stokvels usr ++ [s]))
                      u (users d);
              stokvels :=
                alter (λ st, Stokvel.set_members st (Stokvel.members st ++ [u]))
                      s (stokvels d) |}
  | Contribute s a u =>
      amount_2f ← format_2f a;
      Some {| users :=
                alter (λ usr, User.set_transactions usr
                                (User.transactions usr
                                 ++ [transaction_text w s amount_2f]))
                      u (users d);
              stokvels :=
                alter (stokvel_after_contribution w a u) s (stokvels d) |}
  end.

(** The validity checks of an operation, which precede its mutations. *)
Definition passes_checks (w : world A) (o : op A) : Prop :=
  match o with
  | RegisterUser u _ => users (data w) !! u = None
  | LoginUser u p =>
      ∃ usr, users (data w) !! u = Some usr ∧
             User.password usr = hash_password p
  | CreateStokvel s _ => stokvels (data w) !! s = None
  | JoinStokvel s u =>
      ∃ st, stokvels (data w) !! s = Some st ∧ u ∉ Stokvel.members st
  | Contribute s _ u =>
      ∃ st, stokvels (data w) !! s = Some st ∧ u ∈ Stokvel.members st
  end.

(** The registry operations: the four that write. *)
Definition registry_operation (o : op A) : Prop :=
  match o with
  | LoginUser _ _ => False
  | _ => True
  end.

(** The username an operation of the stokvel registry acts for. *)
Definition acting_user (o : op A) : option string :=
  match o with
  | CreateStokvel _ u | JoinStokvel _ u | Contribute _ _ u => Some u
  | RegisterUser _ _ | LoginUser _ _ => None
  end.

(** "Every registry operation either fully applies its change and
    persists, or makes no change at all": it returns success, the
    dictionary is the one with the change applied in full and the data
    file holds it; or it returns a failure, and the dictionary and the
    data file are as before. *)
Definition all_or_nothing (w : world A) (o : op A) : Prop :=
  let r := fst (exec o w) in
  let w' := snd (exec o w) in
  (succeeded r ∧ applied o w = Some (data w') ∧
   DATA_FILE w' = Some (data w')) ∨
  (failed r ∧ data w' = data w ∧ DATA_FILE w' = DATA_FILE w).

(** "[contribute] with [amount ≤ 0] leaves the stokvel balance unchanged
    and returns [InvalidAmount]", for a member [u] of an existing [s]. *)
Definition nonpositive_amount_rejected (w : world A) (s : string) (a : A)
    (u : string) : Prop :=
  ∀ st, stokvels (data w) !! s = Some st → u ∈ Stokvel.members st →
    num_le a num_zero = true →
    let r := fst (contribute s a u w) in
    let w' := snd (contribute s a u w) in
    failed r ∧
    stokvels (data w') !! s = Some st ∧
    users (data w') !! u = users (data w) !! u.

(** What a contribution that went through leaves behind. *)
Definition contributed (w : world A) (s : string) (a : A)
    (amount_2f u : string) (st : Stokvel.t A) (usr : User.t A)
    (w' : world A) : Prop :=
  stokvels (data w') =
    <[s := stokvel_after_contribution w a u st]> (stokvels (data w)) ∧
  users (data w') =
    <[u := User.set_transactions usr
             (User.transactions usr ++ [transaction_text w s amount_2f])]>
      (users (data w)) ∧
  DATA_FILE w' = Some (data w').

(** "[contribute] increments the stokvel balance by the amount, appends a
    contribution record, appends a formatted transaction string to the
    user's history, persists and returns success", for a member [u] of an
    existing [s] and a positive amount. *)
Definition contribution_recorded (w : world A) (s : string) (a : A)
    (u : string) : Prop :=
  ∀ st, stokvels (data w) !! s = Some st → u ∈ Stokvel.members st →
    num_le a num_zero = false →
    ∃ usr amount_2f w',
      users (data w) !! u = Some usr ∧
      format_2f a = Some amount_2f ∧
      contribute s a u w =
        (Returns (true, confirmation_text s amount_2f), w') ∧
      contributed w s a amount_2f u st usr w'.

(** "[join] fails with [StokvelNotFound] if the name is absent, fails with
    [AlreadyMember] if the username is already in the members, otherwise
    appends the username to the members and the name to the user's
    stokvels and persists", the outcome being an explicit result. *)
Definition join_as_specified (w : world A) (s u : string) : Prop :=
  let r := fst (join_stokvel s u w) in
  let w' := snd (join_stokvel s u w) in
  match stokvels (data w) !! s with
  | None => r = Returns StokvelNotFound ∧ w' = w
  | Some st =>
      if bool_decide (u ∈ Stokvel.members st) then
        r = Returns AlreadyMember ∧ w' = w
      else
        r = Returns (true, "You have joined " +:+ s +:+ "!") ∧
        stokvels (data w') =
          <[s := Stokvel.set_members st (Stokvel.members st ++ [u])]>
            (stokvels (data w)) ∧
        (∃ usr, users (data w) !! u = Some usr ∧
           users (data w') =
             <[u := User.set_stokvels usr (User.stokvels usr ++ [s])]>
               (users (data w))) ∧
        DATA_FILE w' = Some (data w')
  end.

(** "For every existing stokvel [s], [get_stokvel_summary(state, s)]
    returns a record in which [total_contributions] equals [balance]". *)
Definition summary_total_is_balance (w : world A) (s : string) : Prop :=
  ∃ sm,
    get_stokvel_summary s w = (Returns (Some sm), w) ∧
    num_eq (Summary.total_contributions sm) (Summary.balance sm) = true.

(** "[login_user(state, u, p)] succeeds if and only if [u] was previously
    registered with password [p]", in the states of the runs. *)
Definition login_iff_registered_with : Prop :=
  ∀ clk (ops : list (op A)) u p,
    succeeded (fst (login_user u p (run ops (boot clk)))) ↔
    registered ops !! u = Some p.

End Specification.

(** ** Example states

    A run on Python integers: alice registers and opens a savings circle;
    [bob] never registers. *)
Module Examples.

Definition clk (n : nat) : datetime :=
  {| year := 2024; month := 5; day := 17;
     hour := 9; minute := 30; second := Z.of_nat n mod 60;
     microsecond := 0 |}.

Definition opened : world Z :=
  run [RegisterUser "alice" "pw1"; CreateStokvel "SavingsCircle" "alice"]
      (boot clk).

(** [join_stokvel(data, "SavingsCircle", "bob")] has raised its
    [KeyError]; the dictionary keeps what the call did before. *)
Definition haunted : world Z :=
  step opened (JoinStokvel "SavingsCircle" "bob").

(** carol has registered too, and has not joined yet. *)
Definition club : world Z :=
  run [RegisterUser "alice" "pw1"; RegisterUser "carol" "pw2";
       CreateStokvel "SavingsCircle" "alice"]
      (boot clk).

(** Runs on floats.  alice contributes [float("nan")], which
    [validate_amount] lets through. *)
Definition not_a_number : world float :=
  run [RegisterUser "alice" "pw1"; CreateStokvel "SavingsCircle" "alice";
       Contribute "SavingsCircle" nan "alice"]
      (boot clk).

(** alice contributes ten times [0.1]. *)
Definition ten_tenths : world float :=
  run ([RegisterUser "alice" "pw1"; CreateStokvel "SavingsCircle" "alice"]
       ++ repeat (Contribute "SavingsCircle" (1 / 10)%float "alice") 10)
      (boot clk).

(** The two dictionaries of [opened], written out. *)
Definition alice : User.t Z :=
  {| User.password :=
       "c592df4a86933b92addc9842402ddf198c638ea9be58916ee6e3734e1e3152f8";
     User.balance := 0;
     User.transactions := [];
     User.stokvels := ["SavingsCircle"] |}.

Definition circle : Stokvel.t Z :=
  {| Stokvel.members := ["alice"];
     Stokvel.contributions := [];
     Stokvel.balance := 0;
     Stokvel.created_date := "2024-05-17T09:30:00";
     Stokvel.created_by := "alice" |}.

End Examples.

(** ** What the code keeps, beyond the specification *)

Section Kept.
Context {A : Type} `{Number A}.

(** The lists that stand for sets hold no name twice. *)
Definition duplicate_free (d : Data A) : Prop :=
  (∀ s st, stokvels d !! s = Some st → NoDup (Stokvel.members st)) ∧
  (∀ u usr, users d !! u = Some usr → NoDup (User.stokvels usr)).

(** The creator of a stokvel is the first of its members. *)
Definition creator_first (d : Data A) : Prop :=
  ∀ s st, stokvels d !! s = Some st →
    head (Stokvel.members st) = Some (Stokvel.created_by st).

(** Whoever has a contribution on record is a member. *)
Definition contributors_are_members (d : Data A) : Prop :=
  ∀ s st c, stokvels d !! s = Some st → c ∈ Stokvel.contributions st →
    Contribution.user c ∈ Stokvel.members st.

(** A later version of a user or of a stokvel keeps the credential, the
    balance of the user and the creation data, and each of its lists
    begins with the earlier list. *)
Definition user_continues (usr usr' : User.t A) : Prop :=
  User.password usr' = User.password usr ∧
  User.balance usr' = User.balance usr ∧
  User.transactions usr `prefix_of` User.transactions usr' ∧
  User.stokvels usr `prefix_of` User.stokvels usr'.

Definition stokvel_continues (st st' : Stokvel.t A) : Prop :=
  Stokvel.created_date st' = Stokvel.created_date st ∧
  Stokvel.created_by st' = Stokvel.created_by st ∧
  Stokvel.members st `prefix_of` Stokvel.members st' ∧
  Stokvel.contributions st `prefix_of` Stokvel.contributions st'.

(** [d'] continues [d]: every user and every stokvel of [d] is still there
    in a later version. *)
Definition continues (d d' : Data A) : Prop :=
  (∀ u usr, users d !! u = Some usr →
     ∃ usr', users d' !! u = Some usr' ∧ user_continues usr usr') ∧
  (∀ s st, stokvels d !! s = Some st →
     ∃ st', stokvels d' !! s = Some st' ∧ stokvel_continues st st').

(** The data file holds the dictionary, or nothing has been written and
    the dictionary is empty. *)
Definition in_sync (w : world A) : Prop :=
  DATA_FILE w = Some (data w) ∨ (DATA_FILE w = None ∧ data w = empty_data).

End Kept.

(** ** stokwell_cli_2.py

    The command-line front end.  A session holds the world of the ledger,
    the user logged in, the lines still to be read by [input] and what has
    been written to the terminal.  The built-ins applied to what the user
    types are parameters. *)

Class Builtins (A : Type) := {
  str_strip : string → string;        (* [s.strip()] *)
  int_of_str : string → option Z;     (* [int(s)], [None] for [ValueError] *)
  float_of_str : string → option A    (* [float(s)], [None] for [ValueError] *)
}.

Module CLI.

Record session {A : Type} := Session {
  env : world A;
  current_user : option string;
  stdin : list string;
  stdout : list string
}.
Arguments session : clear implicits.
Arguments Session {A}.

(** How a call can end without returning: an exception of the ledger or
    of a rendering, [sys.exit], the end of the input, a [None] used as a
    number, or a list index out of range. *)
Inductive stop :=
| Uncaught (e : exn)
| SystemExit (code : Z)
| EOFError
| TypeError
| IndexError.

Inductive ending (X : Type) :=
| Done (x : X)
| Stopped (e : stop).
Arguments Done {X}.
Arguments Stopped {X}.

Definition C (A X : Type) : Type := session A → ending X * session A.

Definition ret {A X} (x : X) : C A X := fun c => (Done x, c).

Definition raise {A X} (e : stop) : C A X := fun c => (Stopped e, c).

Definition bind {A X Y} (m : C A X) (k : X → C A Y) : C A Y :=
  fun c =>
    match m c with
    | (Done x, c') => k x c'
    | (Stopped e, c') => (Stopped e, c')
    end.

End CLI.

Notation "x <<- m ;; k" := (CLI.bind m (fun x => k))
  (at level 100, m at next level, right associativity).
Notation "m >>> k" := (CLI.bind m (fun _ => k))
  (at level 100, right associativity).

Module StokWELLCLI.
Import CLI.

Section Methods.
Context {A : Type} `{Number A} `{Builtins A}.

(** The line feed that [print] ends a line with. *)
Definition nl : string := String (ascii_of_N 10) "".

(** [print(text)] *)
Definition print (text : string) : C A unit :=
  fun c =>
    (Done tt,
     Session (env c) (current_user c) (stdin c) (stdout c ++ [text +:+ nl])).

(** [input(prompt)]: the prompt is written, the next line is read; at the
    end of the input it raises [EOFError]. *)
Definition input (prompt : string) : C A string :=
  fun c =>
    let c' := Session (env c) (current_user c) (stdin c) (stdout c ++ [prompt]) in
    match stdin c with
    | [] => (Stopped EOFError, c')
    | line :: rest =>
        (Done line,
         Session (env c) (current_user c) rest (stdout c ++ [prompt]))
    end.

(** A call into the ledger on [self.data]. *)
Definition call {X} (m : M A X) : C A X :=
  fun c =>
    match m (env c) with
    | (Returns x, w') =>
        (Done x, Session w' (current_user c) (stdin c) (stdout c))
    | (Raises e, w') =>
        (Stopped (Uncaught e), Session w' (current_user c) (stdin c) (stdout c))
    end.

(** [f"{x:.2f}"] inside a method of the command line. *)
Definition rendered_2f (x : A) : C A string :=
  match format_2f x with
  | Some text => ret text
  | None => raise (Uncaught OverflowError)
  end.

Definition get_current_user : C A (option string) :=
  fun c => (Done (current_user c), c).

Definition set_current_user (u : option string) : C A unit :=
  fun c => (Done tt, Session (env c) u (stdin c) (stdout c)).

(** [for x in xs: body(x)] *)
Fixpoint for_each {X} (xs : list X) (body : X → C A unit) : C A unit :=
  match xs with
  | [] => ret tt
  | x :: xs' => body x >>> for_each xs' body
  end.

(** [enumerate(xs, 1)] *)
Definition enumerate1 {X} (xs : list X) : list (Z * X) :=
  imap (fun i x => (Z.of_nat (S i), x)) xs.

(** [str(n)] for an integer. *)
Definition str_int (n : Z) : string :=
  (if n <? 0 then "-" else "") +:+ decimal (Z.abs n).

(** [text * n] *)
Definition str_mul (text : string) (n : nat) : string :=
  String.concat "" (repeat text n).

(** [xs[-5:]] *)
Definition last5 {X} (xs : list X) : list X :=
  drop (List.length xs - 5) xs.

Definition register : C A unit :=
  print (nl +:+ "--- User Registration ---") >>>
  line <<- input "Enter username: " ;;
  let username := str_strip line in
  if String.eqb username "" then print "Username cannot be empty."
  else
    line <<- input "Enter password: " ;;
    let password := str_strip line in
    if String.eqb password "" then print "Password cannot be empty."
    else
      r <<- call (register_user username password) ;;
      print (snd r).

Definition login : C A unit :=
  print (nl +:+ "--- User Login ---") >>>
  line <<- input "Username: " ;;
  let username := str_strip line in
  line <<- input "Password: " ;;
  let password := str_strip line in
  r <<- call (login_user username password) ;;
  print (snd r) >>>
  if fst r then set_current_user (Some username) else ret tt.

(** The methods below run for the user logged in, [self.current_user]. *)
Definition logout (user : string) : C A unit :=
  print ("Goodbye, " +:+ user +:+ "!") >>>
  set_current_user None.

Definition view_dashboard (user : string) : C A unit :=
  print (nl +:+ "--- Dashboard for " +:+ user +:+ " ---") >>>
  user_data <<- call (users_getitem user) ;;
  balance_2f <<- rendered_2f (User.balance user_data) ;;
  print ("Balance: R" +:+ balance_2f) >>>
  print (nl +:+ "Recent Transactions:") >>>
  (match User.transactions user_data with
   | [] => print "  No transactions yet."
   | _ =>
       for_each (enumerate1 (last5 (User.transactions user_data)))
         (fun '(i, tx) => print ("  " +:+ str_int i +:+ ". " +:+ tx))
   end) >>>
  print (nl +:+ "Your Stokvels:") >>>
  (match User.stokvels user_data with
   | [] => print "  You haven't joined any stokvels yet."
   | _ =>
       for_each (User.stokvels user_data)
         (fun stokvel_name =>
            stokvel <<- call (stokvels_getitem stokvel_name) ;;
            print ("  * " +:+ stokvel_name) >>>
            balance_2f <<- rendered_2f (Stokvel.balance stokvel) ;;
            print ("    Balance: R" +:+ balance_2f) >>>
            print ("    Members: "
                   +:+ String.concat ", " (Stokvel.members stokvel)) >>>
            print ("    Total Contributions: "
                   +:+ str_int (Z.of_nat (List.length
                                           (Stokvel.contributions stokvel)))))
   end) >>>
  print (str_mul "-" 40).

Definition create_stokvel (user : string) : C A unit :=
  print (nl +:+ "--- Create New Stokvel ---") >>>
  line <<- input "Enter stokvel name: " ;;
  let stokvel_name := str_strip line in
  if String.eqb stokvel_name "" then print "Stokvel name cannot be empty."
  else
    r <<- call (create_stokvel stokvel_name user) ;;
    print (snd r).

Definition contribute_to_stokvel (user : string) : C A unit :=
  print (nl +:+ "--- Contribute to Stokvel ---") >>>
  user_data <<- call (users_getitem user) ;;
  let user_stokvels := User.stokvels user_data in
  match user_stokvels with
  | [] => print "You haven't joined any stokvels yet. Create one first!"
  | _ =>
      print "Your Stokvels:" >>>
      for_each (enumerate1 user_stokvels)
        (fun '(i, stokvel_name) =>
           print ("  " +:+ str_int i +:+ ". " +:+ stokvel_name)) >>>
      line <<- input "Select stokvel number: " ;;
      match int_of_str line with
      | None => print "Please enter a valid number."
      | Some number =>
          let choice := number - 1 in
          if (choice <? 0) || (Z.of_nat (List.length user_stokvels) <=? choice)
          then print "Invalid selection."
          else
            match user_stokvels !! Z.to_nat choice with
            | None => raise IndexError
            | Some stokvel_name =>
                line <<- input "Enter contribution amount (R): " ;;
                let amount_str := str_strip line in
                let '(amount, error) :=
                  validate_amount float_of_str amount_str in
                if match error with
                   | Some text => negb (String.eqb text "")
                   | None => false
                   end
                then print ("Error: " +:+ default "" error)
                else
                  match amount with
                  | None => raise TypeError
                  | Some amount =>
                      r <<- call (contribute stokvel_name amount user) ;;
                      print (snd r)
                  end
            end
      end
  end.

Definition show_auth_menu : C A unit :=
  print (nl +:+ "--- Authentication ---") >>>
  print "1. Register" >>>
  print "2. Login" >>>
  print "3. Exit" >>>
  line <<- input (nl +:+ "Select an option: ") ;;
  let choice := str_strip line in
  if String.eqb choice "1" then register
  else if String.eqb choice "2" then login
  else if String.eqb choice "3" then print "Goodbye!" >>> raise (SystemExit 0)
  else print "Invalid option. Please try again.".

Definition show_main_menu (user : string) : C A unit :=
  print (nl +:+ "--- StokWELL Dashboard for " +:+ user +:+ " ---") >>>
  print "1. View Dashboard" >>>
  print "2. Create Stokvel" >>>
  print "3. Contribute to Stokvel" >>>
  print "4. Logout" >>>
  print "5. Exit" >>>
  line <<- input (nl +:+ "Select an option: ") ;;
  let choice := str_strip line in
  if String.eqb choice "1" then view_dashboard user
  else if String.eqb choice "2" then create_stokvel user
  else if String.eqb choice "3" then contribute_to_stokvel user
  else if String.eqb choice "4" then logout user
  else if String.eqb choice "5" then print "Goodbye!" >>> raise (SystemExit 0)
  else print "Invalid option. Please try again.".

(** One turn of the [while True] loop of [run]: [not self.current_user]
    holds for [None] and for the empty string. *)
Definition turn : C A unit :=
  u <<- get_current_user ;;
  match u with
  | None => show_auth_menu
  | Some user => if String.eqb user "" then show_auth_menu
                 else show_main_menu user
  end.

Fixpoint turns (n : nat) : C A unit :=
  match n with
  | O => ret tt
  | S k => turn >>> turns k
  end.

(** [run], up to the first [n] turns of its loop. *)
Definition run (n : nat) : C A unit :=
  print (str_mul "=" 50) >>>
  print "Welcome to StokWELL - Command Line Interface" >>>
  print (str_mul "=" 50) >>>
  turns n.

(** [StokWELLCLI()] on a machine without a data file, with the lines the
    user is going to type. *)
Definition start (clk : nat → datetime) (lines : list string) : session A :=
  Session (boot clk) None lines [].

End Methods.
End StokWELLCLI.

(** ** What a session of the command line keeps *)

Section SessionInvariant.
Context {A : Type} `{Number A} `{Builtins A}.

(** The calls the command line makes: a registration under a name that is
    not empty, a login, a creation under a name that is not empty for a
    registered user, a contribution of a positive amount for a registered
    user; it never calls [join_stokvel]. *)
Definition guarded (w : world A) (o : op A) : Prop :=
  match o with
  | RegisterUser u _ => u ≠ ""
  | LoginUser _ _ => True
  | CreateStokvel s c => s ≠ "" ∧ is_Some (users (data w) !! c)
  | JoinStokvel _ _ => False
  | Contribute _ a u =>
      is_Some (users (data w) !! u) ∧ num_le a num_zero = false
  end.

(** A session ends well when it ends by [sys.exit(0)] or at the end of the
    input. *)
Definition benign (e : CLI.stop) : Prop :=
  e = CLI.SystemExit 0 ∨ e = CLI.EOFError.

(** A state of the ledger reached from the empty store. *)
Definition reachable (w : world A) : Prop :=
  ∃ clk (ops : list (op A)), w = run ops (boot clk).

(** Every amount on record is positive (not [<= 0]). *)
Definition positive_contributions (d : Data A) : Prop :=
  ∀ s st c, stokvels d !! s = Some st → c ∈ Stokvel.contributions st →
    num_le (Contribution.amount c) num_zero = false.

(** The creator of a stokvel is its only member, and is registered. *)
Definition sole_member (d : Data A) : Prop :=
  ∀ s st, stokvels d !! s = Some st →
    Stokvel.members st = [Stokvel.created_by st] ∧
    is_Some (users d !! Stokvel.created_by st).

(** What holds of the ledger and of the user logged in throughout a
    session. *)
Definition kept_state (w : world A) (cu : option string) : Prop :=
  (∀ u, cu = Some u → is_Some (users (data w) !! u)) ∧
  reachable w ∧
  positive_contributions (data w) ∧
  in_sync w ∧
  sole_member (data w) ∧
  users (data w) !! "" = None ∧
  stokvels (data w) !! "" = None.

(** [m], started on the ledger [w] with [cu] logged in, either returns in
    a state and with a value that satisfy [Q], or ends well in a state
    that is kept, whatever is typed. *)
Definition safe {X} (m : CLI.C A X)
    (Q : X → world A → option string → Prop)
    (w : world A) (cu : option string) : Prop :=
  ∀ lines out,
    match m (CLI.Session w cu lines out) with
    | (CLI.Done x, c') => Q x (CLI.env c') (CLI.current_user c')
    | (CLI.Stopped e, c') =>
        benign e ∧ kept_state (CLI.env c') (CLI.current_user c')
    end.

(** [m] reads at least [k] lines before it returns. *)
Definition reads {X} (k : nat) (m : CLI.C A X) : Prop :=
  ∀ c x c', m c = (CLI.Done x, c') →
    (List.length (CLI.stdin c') + k ≤ List.length (CLI.stdin c))%nat.

End SessionInvariant.

(** ** Built-ins for the examples

    They agree with Python on what the examples type: [strip] removes the
    ASCII white space at both ends; [int] reads a plain decimal numeral,
    with an optional minus sign; [float] reads such a numeral, as the
    nearest float, and [nan]; both decline anything else (Python accepts
    more spellings). *)
Module Plain.

Definition is_space (ch : ascii) : bool :=
  let n := Z.of_N (N_of_ascii ch) in
  ((9 <=? n) && (n <=? 13)) || ((28 <=? n) && (n <=? 32)).

Fixpoint lstrip (chars : list ascii) : list ascii :=
  match chars with
  | ch :: rest => if is_space ch then lstrip rest else chars
  | [] => []
  end.

Definition strip (s : string) : string :=
  String.string_of_list_ascii
    (rev (lstrip (rev (lstrip (String.list_ascii_of_string s))))).

Fixpoint numeral (acc : Z) (chars : list ascii) : option Z :=
  match chars with
  | [] => Some acc
  | ch :: rest =>
      let n := Z.of_N (N_of_ascii ch) in
      if (48 <=? n) && (n <=? 57) then numeral (acc * 10 + (n - 48)) rest
      else None
  end.

Definition int (s : string) : option Z :=
  match String.list_ascii_of_string s with
  | [] => None
  | "-"%char :: [] => None
  | "-"%char :: rest => Z.opp <$> numeral 0 rest
  | chars => numeral 0 chars
  end.

Definition float (s : string) : option PrimFloat.float :=
  if String.eqb s "nan" then Some nan
  else (λ n, SF2Prim (binary_normalize prec emax n 0 false)) <$> int s.

#[global] Instance builtins : Builtins PrimFloat.float := {
  str_strip := strip;
  int_of_str := int;
  float_of_str := float
}.

(** alice registers, logs in, opens a savings circle, contributes 100,
    tries to contribute -5, looks at her dashboard and leaves. *)
Definition typed : list string :=
  ["1"; "alice"; "pw1"; "2"; "alice"; "pw1"; "2"; "SavingsCircle";
   "3"; "1"; "100"; "3"; "1"; "-5"; "1"; "5"].

End Plain.

(** * Properties *)

(** ** The digest *)

Lemma hex32_length (x : Z) : List.length (SHA256.hex32 x) = 8%nat.
Proof. reflexivity. Qed.

Lemma string_of_list_ascii_length (l : list ascii) :
  String.length (String.string_of_list_ascii l) = List.length l.
Proof. induction l as [|ch l IH]; simpl; [reflexivity | now rewrite IH]. Qed.

(** A digest is 64 hexadecimal characters, whatever the password. *)
Lemma hash_password_length (password : string) :
  String.length (hash_password password) = 64%nat.
Proof.
  unfold hash_password, SHA256.hexdigest.
  rewrite string_of_list_ascii_length, !length_app, !hex32_length.
  reflexivity.
Qed.

Lemma verify_password_true (password hashed : string) :
  verify_password password hashed = true ↔ hashed = hash_password password.
Proof.
  unfold verify_password. rewrite String.eqb_eq. split; congruence.
Qed.

(** *** More passwords than digests *)

Lemma ascii_bits_length (ch : ascii) : List.length (ascii_bits ch) = 8%nat.
Proof. destruct ch; reflexivity. Qed.

Lemma ascii_bits_inj (c1 c2 : ascii) : ascii_bits c1 = ascii_bits c2 → c1 = c2.
Proof. destruct c1, c2; cbn; intros [=]; congruence. Qed.

Lemma string_bits_length (s : string) :
  List.length (string_bits s) = (8 * String.length s)%nat.
Proof.
  induction s as [|ch s IH]; cbn [string_bits String.length]; [reflexivity|].
  rewrite length_app, ascii_bits_length, IH. lia.
Qed.

Lemma string_bits_inj (s1 s2 : string) :
  string_bits s1 = string_bits s2 → s1 = s2.
Proof.
  revert s2. induction s1 as [|c1 s1 IH]; intros [|c2 s2];
    cbn [string_bits]; intros Heq.
  - reflexivity.
  - apply (f_equal (@List.length bool)) in Heq.
    rewrite length_app, ascii_bits_length in Heq. discriminate Heq.
  - apply (f_equal (@List.length bool)) in Heq.
    rewrite length_app, ascii_bits_length in Heq. discriminate Heq.
  - apply app_inj_1 in Heq as [Hc Hs];
      [|now rewrite !ascii_bits_length].
    f_equal; [now apply ascii_bits_inj | now apply IH].
Qed.

Lemma bits_value_bound (bits : list bool) :
  (bits_value bits < 2 ^ List.length bits)%nat.
Proof.
  induction bits as [|b bits IH]; [cbn; lia|].
  cbn [bits_value List.length]. rewrite Nat.pow_succ_r'.
  destruct b; lia.
Qed.

Lemma bits_value_inj (l1 l2 : list bool) :
  List.length l1 = List.length l2 → bits_value l1 = bits_value l2 → l1 = l2.
Proof.
  revert l2. induction l1 as [|b1 l1 IH]; intros [|b2 l2]; cbn [List.length];
    try discriminate; [reflexivity|].
  intros [= Hlen] Hv. cbn [bits_value] in Hv.
  assert (b1 = b2 ∧ bits_value l1 = bits_value l2) as [-> Hv'].
  { destruct b1, b2; split; try reflexivity; lia. }
  f_equal. now apply IH.
Qed.

Lemma unary_length (n : nat) : String.length (unary n) = n.
Proof.
  unfold unary. rewrite string_of_list_ascii_length. apply repeat_length.
Qed.

(** There are [2 ^ 512] strings of 64 characters at most, and more
    passwords than that: two passwords have the same digest. *)
Lemma digest_collision :
  ∃ p0 p : string, p0 ≠ p ∧ hash_password p0 = hash_password p.
Proof.
  destruct (nat_pigeonhole
              (λ i, bits_value (string_bits (hash_password (unary i))))
              (S (2 ^ (8 * 64))) (2 ^ (8 * 64)))%nat
    as (i1 & i2 & [Hlt _] & Hv).
  - apply Nat.lt_succ_diag_r.
  - intros i _.
    pose proof (bits_value_bound (string_bits (hash_password (unary i))))
      as Hb.
    rewrite string_bits_length, hash_password_length in Hb. exact Hb.
  - exists (unary i1), (unary i2). split.
    + intros Heq. apply (f_equal String.length) in Heq.
      rewrite !unary_length in Heq. lia.
    + apply string_bits_inj, bits_value_inj; [|exact Hv].
      now rewrite !string_bits_length, !hash_password_length.
Qed.

(** ** The numbers *)

#[export] Instance float_renders : AlwaysRenders float.
Proof. intros x. eexists. reflexivity. Qed.

Lemma int_exact_sums : exact_sums Z.
Proof. split; [reflexivity | apply Z.eqb_refl]. Qed.

(** ** The operations in closed form *)

Section ClosedForms.
Context {A : Type} `{Number A}.
Implicit Types (w : world A) (d : Data A) (a : A).

Ltac open_world w :=
  destruct w as [[us ss] file clk t];
  unfold contains, stokvels_getitem, stokvels_setitem, users_getitem,
    users_setitem, format_spec_2f;
  unfold bind, get_data, set_data, datetime_now, save_data, ret, raise;
  simpl.

Lemma running_total_snoc (xs : list A) (x : A) :
  running_total (xs ++ [x]) = num_add (running_total xs) x.
Proof. unfold running_total. now rewrite fold_left_app. Qed.

Lemma register_user_eq username password w :
  register_user username password w =
    match users (data w) !! username with
    | Some _ => (Returns DuplicateUser, w)
    | None =>
        let d' := {| users := <[username := new_user password]> (users (data w));
                     stokvels := stokvels (data w) |} in
        (Returns (true, "User " +:+ username +:+ " registered successfully!"),
         World d' (Some d') (clock w) (ticks w))
    end.
Proof.
  unfold register_user. open_world w.
  destruct (us !! username); reflexivity.
Qed.

Lemma login_user_eq username password w :
  login_user username password w =
    match users (data w) !! username with
    | Some user =>
        if verify_password password (User.password user) then
          (Returns (true, "Welcome back, " +:+ username +:+ "!"), w)
        else (Returns InvalidCredentials, w)
    | None => (Returns InvalidCredentials, w)
    end.
Proof.
  unfold login_user. open_world w.
  destruct (us !! username) as [user|]; [|reflexivity].
  destruct (verify_password _ _); reflexivity.
Qed.

Lemma create_stokvel_eq stokvel_name current_user w :
  create_stokvel stokvel_name current_user w =
    match stokvels (data w) !! stokvel_name with
    | Some _ => (Returns DuplicateStokvel, w)
    | None =>
        let ss' := <[stokvel_name := new_stokvel w current_user]>
                     (stokvels (data w)) in
        match users (data w) !! current_user with
        | None =>
            (Raises (KeyError current_user),
             World {| users := users (data w); stokvels := ss' |}
                   (DATA_FILE w) (clock w) (S (ticks w)))
        | Some user =>
            let d' :=
              {| users := <[current_user :=
                   User.set_stokvels user (User.stokvels user ++ [stokvel_name])]>
                   (users (data w));
                 stokvels := ss' |} in
            (Returns (true, "Stokvel '" +:+ stokvel_name
                            +:+ "' created and you have joined it!"),
             World d' (Some d') (clock w) (S (ticks w)))
        end
    end.
Proof.
  unfold create_stokvel. open_world w.
  destruct (ss !! stokvel_name); simpl; [reflexivity|].
  destruct (us !! current_user); reflexivity.
Qed.

Lemma join_stokvel_eq stokvel_name username w :
  join_stokvel stokvel_name username w =
    match stokvels (data w) !! stokvel_name with
    | None => (Returns StokvelNotFound, w)
    | Some st =>
        if bool_decide (username ∈ Stokvel.members st) then
          (Returns AlreadyMember, w)
        else
          let ss' := <[stokvel_name :=
                         Stokvel.set_members st (Stokvel.members st ++ [username])]>
                       (stokvels (data w)) in
          match users (data w) !! username with
          | None =>
              (Raises (KeyError username),
               World {| users := users (data w); stokvels := ss' |}
                     (DATA_FILE w) (clock w) (ticks w))
          | Some user =>
              let d' :=
                {| users := <[username :=
                     User.set_stokvels user (User.stokvels user ++ [stokvel_name])]>
                     (users (data w));
                   stokvels := ss' |} in
              (Returns (true, "You have joined " +:+ stokvel_name +:+ "!"),
               World d' (Some d') (clock w) (ticks w))
          end
    end.
Proof.
  unfold join_stokvel. open_world w.
  destruct (ss !! stokvel_name) as [st|] eqn:Hs; simpl; [|reflexivity].
  rewrite Hs; simpl.
  destruct (bool_decide _); simpl; [reflexivity|].
  rewrite Hs; simpl.
  destruct (us !! username); reflexivity.
Qed.

Lemma contribute_eq stokvel_name a current_user w :
  contribute stokvel_name a current_user w =
    match stokvels (data w) !! stokvel_name with
    | None => (Returns StokvelNotFound, w)
    | Some st =>
        if bool_decide (current_user ∈ Stokvel.members st) then
          let ss' := <[stokvel_name :=
                         stokvel_after_contribution w a current_user st]>
                       (stokvels (data w)) in
          match format_2f a with
          | None =>
              (Raises OverflowError,
               World {| users := users (data w); stokvels := ss' |}
                     (DATA_FILE w) (clock w) (S (ticks w)))
          | Some amount_2f =>
              match users (data w) !! current_user with
              | None =>
                  (Raises (KeyError current_user),
                   World {| users := users (data w); stokvels := ss' |}
                         (DATA_FILE w) (clock w) (S (S (ticks w))))
              | Some user =>
                  let d' :=
                    {| users := <[current_user :=
                         User.set_transactions user
                           (User.transactions user
                            ++ [transaction_text w stokvel_name amount_2f])]>
                         (users (data w));
                       stokvels := ss' |} in
                  (Returns (true, confirmation_text stokvel_name amount_2f),
                   World d' (Some d') (clock w) (S (S (ticks w))))
              end
          end
        else (Returns NotAMember, w)
    end.
Proof.
  unfold contribute. open_world w.
  destruct (ss !! stokvel_name) as [st|] eqn:Hs; simpl; [|reflexivity].
  rewrite Hs; simpl.
  destruct (bool_decide _); simpl; [|reflexivity].
  rewrite Hs; simpl. rewrite lookup_insert_eq; simpl.
  rewrite insert_insert_eq.
  destruct (format_2f a) as [amount_2f|]; simpl; [|reflexivity].
  destruct (us !! current_user); reflexivity.
Qed.

Lemma get_stokvel_summary_eq stokvel_name w :
  get_stokvel_summary stokvel_name w =
    (Returns
       (match stokvels (data w) !! stokvel_name with
        | None => None
        | Some st =>
            Some {| Summary.name := stokvel_name;
                    Summary.balance := Stokvel.balance st;
                    Summary.total_contributions :=
                      num_sum (map Contribution.amount
                                 (Stokvel.contributions st));
                    Summary.member_count := List.length (Stokvel.members st);
                    Summary.members := Stokvel.members st;
                    Summary.created_date := Stokvel.created_date st;
                    Summary.created_by := Stokvel.created_by st |}
        end), w).
Proof.
  unfold get_stokvel_summary. open_world w.
  destruct (ss !! stokvel_name); reflexivity.
Qed.

Lemma update_user_balance_eq username a w :
  update_user_balance username a w =
    match users (data w) !! username with
    | None => (Returns false, w)
    | Some user =>
        let d' :=
          {| users := <[username :=
               User.set_balance user (num_add (User.balance user) a)]>
               (users (data w));
             stokvels := stokvels (data w) |} in
        (Returns true, World d' (Some d') (clock w) (ticks w))
    end.
Proof.
  unfold update_user_balance. open_world w.
  destruct (us !! username) as [user|] eqn:Hu; simpl; [|reflexivity].
  rewrite Hu; reflexivity.
Qed.

End ClosedForms.

(** ** One step of a run *)

Section Steps.
Context {A : Type} `{Number A}.
Implicit Types (w : world A) (d : Data A) (a : A) (o : op A).

Ltac step_cases o w :=
  destruct o as [u0 p0|u0 p0|s0 u0|s0 u0|s0 a0 u0]; unfold step, exec;
  [ rewrite register_user_eq | rewrite login_user_eq
  | rewrite create_stokvel_eq | rewrite join_stokvel_eq
  | rewrite contribute_eq ];
  repeat match goal with
    | |- context [match ?m !! ?k with _ => _ end] =>
        let E := fresh "E" in destruct (m !! k) eqn:E
    | |- context [match format_2f ?a with _ => _ end] =>
        let E := fresh "F" in
        let text := fresh "amount_2f" in
        destruct (format_2f a) as [text|] eqn:E
    | |- context [if verify_password ?p ?h then _ else _] =>
        destruct (verify_password p h)
    | |- context [if bool_decide ?P then _ else _] =>
        let E := fresh "M" in destruct (bool_decide_reflect P) as [E|E]
    end;
  simpl.

Lemma run_snoc (ops : list (op A)) o w :
  run (ops ++ [o]) w = step (run ops w) o.
Proof. unfold run. now rewrite fold_left_app. Qed.

(** A step never removes a user and keeps the credential and the balance
    of every user it finds. *)
Lemma step_keeps_user w o u usr :
  users (data w) !! u = Some usr →
  ∃ usr', users (data (step w o)) !! u = Some usr' ∧
          User.password usr' = User.password usr ∧
          User.balance usr' = User.balance usr.
Proof.
  step_cases o w; intros Hu; eauto;
    (destruct (decide (u0 = u)) as [->|Hne];
     [ rewrite lookup_insert_eq; simplify_eq; eauto
     | rewrite lookup_insert_ne by done; eauto ]).
Qed.

(** A step adds a user only by registration. *)
Lemma step_new_user w o u usr' :
  users (data w) !! u = None →
  users (data (step w o)) !! u = Some usr' →
  ∃ p, o = RegisterUser u p ∧ usr' = new_user p.
Proof.
  step_cases o w; intros Hu Hu'; simplify_eq;
    (destruct (decide (u0 = u)) as [->|Hne];
     [ rewrite lookup_insert_eq in Hu'; simplify_eq; eauto
     | rewrite lookup_insert_ne in Hu' by done; simplify_eq ]).
Qed.

Lemma balanced_step w o : balanced (data w) → balanced (data (step w o)).
Proof.
  intros Hinv.
  step_cases o w; try exact Hinv;
    intros s st; simpl; rewrite lookup_insert; case_decide; simplify_eq;
    try (apply Hinv; fail); intros [= <-];
    try reflexivity;
    try (simpl; eapply Hinv; eassumption);
    unfold stokvel_after_contribution;
    cbn [Stokvel.balance Stokvel.contributions];
    rewrite map_app; cbn [map]; rewrite running_total_snoc;
    cbn [Contribution.amount contribution_record];
    f_equal; eapply Hinv; eassumption.
Qed.

Lemma consistent_step w o : consistent (data w) → consistent (data (step w o)).
Proof.
  intros Hinv.
  step_cases o w; try exact Hinv; intros u usr s; simpl;
    rewrite ?(lookup_insert (users (data w))); intros Hu Hs;
    try case_decide; simplify_eq; simpl in Hs;
    try (inversion Hs; fail);
    try (eapply Hinv; eauto; fail);
    try (apply elem_of_app in Hs as [Hs|Hs%list_elem_of_singleton]);
    simplify_eq;
    try (rewrite lookup_insert_eq; eexists; split; [reflexivity|];
         simpl; set_solver);
    destruct (Hinv _ _ _ ltac:(eassumption) Hs) as (st & Hst & Hmem);
    (destruct (decide (s0 = s)) as [->|Hne];
     [ rewrite lookup_insert_eq; simplify_eq;
       try (eexists; split; [reflexivity|]; simpl; set_solver)
     | rewrite lookup_insert_ne by done; eauto ]).
Qed.
End Steps.

(** ** Runs from the empty store *)

Section Runs.
Context {A : Type} `{Number A}.
Implicit Types (w : world A) (o : op A) (ops : list (op A)).

Lemma registered_snoc ops o :
  registered (ops ++ [o]) =
    match o with
    | RegisterUser username password =>
        if contains (registered ops) username then registered ops
        else <[username := password]> (registered ops)
    | _ => registered ops
    end.
Proof. unfold registered. now rewrite fold_left_app. Qed.

Lemma balanced_run clk ops : balanced (data (run ops (boot clk))).
Proof.
  induction ops as [|o ops IH] using rev_ind.
  - intros s st Hs. simpl in Hs. rewrite lookup_empty in Hs. discriminate.
  - rewrite run_snoc. now apply balanced_step.
Qed.

Lemma consistent_run clk ops : consistent (data (run ops (boot clk))).
Proof.
  induction ops as [|o ops IH] using rev_ind.
  - intros u usr s Hu. simpl in Hu. rewrite lookup_empty in Hu. discriminate.
  - rewrite run_snoc. now apply consistent_step.
Qed.

Lemma zero_balance_run clk ops u usr :
  users (data (run ops (boot clk))) !! u = Some usr →
  User.balance usr = num_zero.
Proof.
  revert usr. induction ops as [|o ops IH] using rev_ind; intros usr.
  - simpl. rewrite lookup_empty. discriminate.
  - rewrite run_snoc. intros Hu.
    destruct (users (data (run ops (boot clk))) !! u) as [usr0|] eqn:E.
    + destruct (step_keeps_user _ o _ _ E) as (usr' & Hu' & _ & Hb).
      rewrite Hu in Hu'. injection Hu' as <-.
      rewrite Hb. now apply IH.
    + destruct (step_new_user _ _ _ _ E Hu) as (p & _ & ->). reflexivity.
Qed.

(** A registration of a fresh username creates the user. *)
Lemma step_register_fresh w u p :
  users (data w) !! u = None →
  users (data (step w (RegisterUser u p))) !! u = Some (new_user p).
Proof.
  intros E. unfold step, exec. rewrite register_user_eq, E. simpl.
  apply lookup_insert_eq.
Qed.

(** The stored credentials are the digests of the passwords the users
    were first registered with. *)
Lemma credentials_run clk ops u :
  User.password <$> users (data (run ops (boot clk))) !! u =
  hash_password <$> registered ops !! u.
Proof.
  induction ops as [|o ops IH] using rev_ind.
  - simpl. unfold registered. simpl. now rewrite !lookup_empty.
  - rewrite run_snoc, registered_snoc.
    set (w := run ops (boot clk)) in *.
    destruct (users (data w) !! u) as [usr0|] eqn:E.
    + destruct (step_keeps_user _ o _ _ E) as (usr' & -> & Hp & _).
      simpl in *. rewrite Hp, IH.
      destruct (registered ops !! u) as [q|] eqn:R; [|discriminate].
      destruct o as [u0 p0| | | |]; try (now rewrite R).
      unfold contains.
      destruct (decide (u0 = u)) as [->|Hne];
        [rewrite R; simpl; now rewrite R|].
      destruct (registered ops !! u0); [now rewrite R|].
      rewrite lookup_insert_ne by done. now rewrite R.
    + simpl in IH.
      destruct (registered ops !! u) as [q|] eqn:R; [discriminate|].
      destruct (users (data (step w o)) !! u) as [usr'|] eqn:E'.
      * destruct (step_new_user _ _ _ _ E E') as (p & -> & ->).
        unfold contains. rewrite R, lookup_insert_eq. reflexivity.
      * destruct o as [u0 p0| | | |]; try (now rewrite R).
        destruct (decide (u0 = u)) as [->|Hne].
        { rewrite step_register_fresh in E' by done. discriminate. }
        unfold contains.
        destruct (registered ops !! u0); [now rewrite R|].
        rewrite lookup_insert_ne by done. now rewrite R.
Qed.

End Runs.

(** ** The claims of the specification *)

Section Claims.
Context {A : Type} `{Number A}.
Implicit Types (w : world A) (o : op A) (a : A).


Lemma alter_found {V} (f : V → V) (m : gmap string V) k v :
  m !! k = Some v → alter f k m = <[k := f v]> m.
Proof.
  intros E. apply map_eq; intros j. rewrite lookup_alter, lookup_insert.
  case_decide; [now rewrite E | reflexivity].
Qed.


(** C3 (as amended).  In every state reached from the empty store by any
    sequence of registrations, logins, creations, joins and contributions
    (whether they returned or raised), the balance of every stokvel is
    what adding the amounts of its contributions to [0], in their order,
    gives; [get_stokvel_summary] reports that balance and, as total of
    the contributions, [sum] of the amounts; and the two are equal
    ([==]) on a numeric type on which [sum] adds from left to right and
    [==] is reflexive, as on the integers. *)
Theorem balance_is_sum_of_contributions clk (ops : list (op A)) s st :
  stokvels (data (run ops (boot clk))) !! s = Some st →
  Stokvel.balance st =
    running_total (map Contribution.amount (Stokvel.contributions st)) ∧
  (∃ sm,
     get_stokvel_summary s (run ops (boot clk)) =
       (Returns (Some sm), run ops (boot clk)) ∧
     Summary.balance sm = Stokvel.balance st ∧
     Summary.total_contributions sm =
       num_sum (map Contribution.amount (Stokvel.contributions st))) ∧
  (exact_sums A → summary_total_is_balance (run ops (boot clk)) s).
Proof.
  intros Hs. pose proof (balanced_run clk ops s st Hs) as Hb.
  split; [exact Hb|]. split.
  - rewrite get_stokvel_summary_eq, Hs. eexists. split; [reflexivity|].
    cbn. split; reflexivity.
  - intros [Hsum Heq]. unfold summary_total_is_balance.
    rewrite get_stokvel_summary_eq, Hs. eexists. split; [reflexivity|].
    cbn. rewrite Hsum, <- Hb. apply Heq.
Qed.

(** C4.  In every state reached from the empty store by any sequence of
    operations, every stokvel name in the stokvel list of a registered
    user exists in the stokvel mapping, and the user is among the members
    of that stokvel. *)
Theorem no_orphaned_reference clk (ops : list (op A)) u usr s :
  users (data (run ops (boot clk))) !! u = Some usr →
  s ∈ User.stokvels usr →
  ∃ st,
    stokvels (data (run ops (boot clk))) !! s = Some st ∧
    u ∈ Stokvel.members st.
Proof. apply consistent_run. Qed.

(** C5.  [register_user] fails with the duplicate-user result exactly
    when the username is already a key of the users; it then changes
    nothing, so that a second registration of the same username fails
    whatever its password.  On success the new user holds the digest of
    the password (64 hexadecimal characters, not the password), balance
    0, no transactions and no stokvels, every other entry is untouched,
    and the state is saved. *)
Theorem register_user_spec w u p p2 :
  (fst (register_user u p w) = Returns DuplicateUser ↔
   is_Some (users (data w) !! u)) ∧
  match users (data w) !! u with
  | Some _ => register_user u p w = (Returns DuplicateUser, w)
  | None =>
      ∃ w',
        register_user u p w =
          (Returns (true, "User " +:+ u +:+ " registered successfully!"), w') ∧
        users (data w') =
          <[u := {| User.password := hash_password p;
                    User.balance := num_zero;
                    User.transactions := [];
                    User.stokvels := [] |}]> (users (data w)) ∧
        stokvels (data w') = stokvels (data w) ∧
        DATA_FILE w' = Some (data w')
  end ∧
  register_user u p2 (snd (register_user u p w)) =
    (Returns DuplicateUser, snd (register_user u p w)) ∧
  String.length (hash_password p) = 64%nat.
Proof.
  rewrite !register_user_eq.
  destruct (users (data w) !! u) as [usr|] eqn:Hu; cbn.
  - rewrite Hu. repeat split; eauto using hash_password_length.
  - rewrite lookup_insert_eq.
    repeat split; eauto using hash_password_length.
    + intros [=].
    + intros [? [=]].
Qed.


(** C7.  For a registered creator [c], [create_stokvel] fails with the
    duplicate-stokvel result exactly when the name already exists, and
    then changes nothing.  Otherwise it returns success, stores under the
    name a stokvel with members [[c]], balance 0, no contributions, the
    time of the call and the creator, appends the name to the stokvels of
    [c] and saves the state; the summary of the new stokvel then counts
    one member, [c]. *)
Theorem create_stokvel_spec w s c usr :
  users (data w) !! c = Some usr →
  (fst (create_stokvel s c w) = Returns DuplicateStokvel ↔
   is_Some (stokvels (data w) !! s)) ∧
  match stokvels (data w) !! s with
  | Some _ => create_stokvel s c w = (Returns DuplicateStokvel, w)
  | None =>
      ∃ w',
        create_stokvel s c w =
          (Returns (true, "Stokvel '" +:+ s
                          +:+ "' created and you have joined it!"), w') ∧
        stokvels (data w') =
          <[s := {| Stokvel.members := [c];
                    Stokvel.contributions := [];
                    Stokvel.balance := num_zero;
                    Stokvel.created_date := isoformat (clock w (ticks w));
                    Stokvel.created_by := c |}]> (stokvels (data w)) ∧
        users (data w') =
          <[c := User.set_stokvels usr (User.stokvels usr ++ [s])]>
            (users (data w)) ∧
        DATA_FILE w' = Some (data w') ∧
        ∃ sm,
          get_stokvel_summary s w' = (Returns (Some sm), w') ∧
          Summary.member_count sm = 1%nat ∧
          Summary.members sm = [c] ∧
          c ∈ Summary.members sm
  end.
Proof.
  intros Hu. rewrite !create_stokvel_eq.
  destruct (stokvels (data w) !! s) as [st|] eqn:Hs; cbn.
  - repeat split; eauto.
  - rewrite Hu; cbn. split.
    + split; [intros [=] | intros [? [=]]].
    + eexists. split; [reflexivity|]. cbn.
      split; [reflexivity|]. split; [reflexivity|]. split; [reflexivity|].
      rewrite lookup_insert_eq.
      eexists. split; [reflexivity|]. cbn.
      split; [reflexivity|]. split; [reflexivity|]. apply list_elem_of_here.
Qed.


(** C9 (as amended).  [join_stokvel] fails with the stokvel-not-found
    result when the name is absent and with the already-member result
    when the username is among the members, changing nothing; otherwise,
    for a registered user, it appends the username to the members and the
    name to the stokvels of the user, saves the state and returns
    success.  In each of these cases the outcome is an explicit result. *)
Theorem join_stokvel_spec w s u :
  is_Some (users (data w) !! u) ∨
  stokvels (data w) !! s = None ∨
  (∃ st, stokvels (data w) !! s = Some st ∧ u ∈ Stokvel.members st) →
  join_as_specified w s u ∧
  (succeeded (fst (join_stokvel s u w)) ∨ failed (fst (join_stokvel s u w))).
Proof.
  intros Hpre. unfold join_as_specified, succeeded, failed.
  rewrite join_stokvel_eq.
  destruct (stokvels (data w) !! s) as [st|] eqn:Hs; [|cbn; eauto 10].
  destruct (bool_decide_reflect (u ∈ Stokvel.members st)) as [Hm|Hm];
    [cbn; eauto 10|].
  destruct Hpre as [[usr Hu]|[[=]|(st' & [= <-] & Hm')]]; [|contradiction].
  rewrite Hu; cbn. eauto 10.
Qed.

(** C10.  No operation of the ledger touches the balance of a user: a
    user found before a step is found after it with the same balance, so
    that in every state reached from the empty store every registered
    user has balance 0.  The helper [update_user_balance] does change the
    balance; no operation calls it. *)
Theorem user_balance_untouched :
  (∀ w o u usr,
     users (data w) !! u = Some usr →
     ∃ usr', users (data (step w o)) !! u = Some usr' ∧
             User.balance usr' = User.balance usr) ∧
  (∀ clk (ops : list (op A)) u usr,
     users (data (run ops (boot clk))) !! u = Some usr →
     User.balance usr = num_zero) ∧
  (∀ w u a usr,
     users (data w) !! u = Some usr →
     ∃ w', update_user_balance u a w = (Returns true, w') ∧
           User.balance <$> users (data w') !! u =
             Some (num_add (User.balance usr) a)).
Proof.
  split; [|split].
  - intros w o u usr Hu.
    destruct (step_keeps_user w o u usr Hu) as (usr' & Hu' & _ & Hb). eauto.
  - intros clk ops u usr. apply zero_balance_run.
  - intros w u a usr Hu. rewrite update_user_balance_eq, Hu.
    eexists. split; [reflexivity|]. cbn. now rewrite lookup_insert_eq.
Qed.

End Claims.





(** C3, as stated, fails on floats, which is what the front end passes.
    [float("nan")] is not [<= 0], so [validate_amount] lets it through;
    after alice has contributed it the balance and the total of the
    summary are both [nan], whether [sum] compensates or adds from left
    to right, and [nan == nan] is [False].  And after ten contributions
    of [0.1] the balance is [0.9999999999999999] while [sum], which
    compensates the rounding errors (CPython from 3.12 on), returns
    [1.0]. *)
Lemma summary_total_differs_from_balance :
  validate_amount Plain.float "nan" = (Some nan, None) ∧
  Stokvel.balance <$>
    stokvels (data Examples.not_a_number) !! "SavingsCircle" = Some nan ∧
  map Contribution.amount ∘ Stokvel.contributions <$>
    stokvels (data Examples.not_a_number) !! "SavingsCircle" = Some [nan] ∧
  num_sum [nan] = nan ∧
  running_total [nan] = nan ∧
  num_eq nan nan = false ∧
  ¬ summary_total_is_balance Examples.not_a_number "SavingsCircle" ∧
  Stokvel.balance <$>
    stokvels (data Examples.ten_tenths) !! "SavingsCircle"
    = Some 0x1.fffffffffffffp-1%float ∧
  map Contribution.amount ∘ Stokvel.contributions <$>
    stokvels (data Examples.ten_tenths) !! "SavingsCircle"
    = Some (repeat (1 / 10)%float 10) ∧
  num_sum (repeat (1 / 10)%float 10) = 1%float ∧
  ¬ summary_total_is_balance Examples.ten_tenths "SavingsCircle".
Proof.
  assert (Hrefute : ∀ (w : world float) s b l,
            Stokvel.balance <$> stokvels (data w) !! s = Some b →
            map Contribution.amount ∘ Stokvel.contributions <$>
              stokvels (data w) !! s = Some l →
            num_eq (num_sum l) b = false →
            ¬ summary_total_is_balance w s).
  { intros w s b l Hb Hl Hne (sm & Hsm & Heq).
    rewrite get_stokvel_summary_eq in Hsm.
    destruct (stokvels (data w) !! s) as [st|]; [|discriminate Hb].
    apply (f_equal fst) in Hsm. cbn in Hsm, Hb, Hl.
    injection Hsm as <-. injection Hb as <-. injection Hl as <-.
    cbn [Summary.total_contributions Summary.balance] in Heq.
    unfold compose in Hne.
    pose proof (eq_trans (eq_sym Heq) Hne) as Hx. discriminate Hx. }
  assert (Hb1 : Stokvel.balance <$>
                  stokvels (data Examples.not_a_number) !! "SavingsCircle"
                = Some nan) by (vm_compute; reflexivity).
  assert (Hl1 : map Contribution.amount ∘ Stokvel.contributions <$>
                  stokvels (data Examples.not_a_number) !! "SavingsCircle"
                = Some [nan]) by (vm_compute; reflexivity).
  assert (Hb2 : Stokvel.balance <$>
                  stokvels (data Examples.ten_tenths) !! "SavingsCircle"
                = Some 0x1.fffffffffffffp-1%float) by (vm_compute; reflexivity).
  assert (Hl2 : map Contribution.amount ∘ Stokvel.contributions <$>
                  stokvels (data Examples.ten_tenths) !! "SavingsCircle"
                = Some (repeat (1 / 10)%float 10)) by (vm_compute; reflexivity).
  split; [vm_compute; reflexivity|].
  split; [exact Hb1|]. split; [exact Hl1|].
  split; [vm_compute; reflexivity|].
  split; [vm_compute; reflexivity|].
  split; [vm_compute; reflexivity|].
  split; [apply (Hrefute _ _ _ _ Hb1 Hl1); vm_compute; reflexivity|].
  split; [exact Hb2|]. split; [exact Hl2|].
  split; [vm_compute; reflexivity|].
  apply (Hrefute _ _ _ _ Hb2 Hl2); vm_compute; reflexivity.
Qed.

Lemma balance_is_sum_of_contributions_witness :
  Stokvel.balance
    {| Stokvel.members := ["alice"];
       Stokvel.contributions :=
         [Contribution.Make Z "alice" 100 "2024-05-17T09:30:01";
          Contribution.Make Z "alice" 25 "2024-05-17T09:30:03"];
       Stokvel.balance := 125;
       Stokvel.created_date := "2024-05-17T09:30:00";
       Stokvel.created_by := "alice" |} = running_total [100; 25] ∧
  summary_total_is_balance
    (run [RegisterUser "alice" "pw1"; CreateStokvel "SavingsCircle" "alice";
          Contribute "SavingsCircle" 100 "alice";
          Contribute "SavingsCircle" 50 "bob";
          Contribute "SavingsCircle" 25 "alice"] (boot Examples.clk))
    "SavingsCircle".
Proof.
  pose proof
    (balance_is_sum_of_contributions Examples.clk
       [RegisterUser "alice" "pw1"; CreateStokvel "SavingsCircle" "alice";
        Contribute "SavingsCircle" 100 "alice";
        Contribute "SavingsCircle" 50 "bob";
        Contribute "SavingsCircle" 25 "alice"] "SavingsCircle"
       {| Stokvel.members := ["alice"];
          Stokvel.contributions :=
            [Contribution.Make Z "alice" 100 "2024-05-17T09:30:01";
             Contribution.Make Z "alice" 25 "2024-05-17T09:30:03"];
          Stokvel.balance := 125;
          Stokvel.created_date := "2024-05-17T09:30:00";
          Stokvel.created_by := "alice" |}) as Hx.
  destruct Hx as (Hb & _ & Hex); [vm_compute; reflexivity|].
  split; [exact Hb | exact (Hex int_exact_sums)].
Defined.

Lemma no_orphaned_reference_witness :
  ∃ st,
    stokvels (data (run [RegisterUser (A:=Z) "alice" "pw1";
                         CreateStokvel "SavingsCircle" "alice"]
                        (boot Examples.clk))) !! "SavingsCircle" = Some st ∧
    "alice" ∈ Stokvel.members st.
Proof.
  apply (no_orphaned_reference Examples.clk _ "alice" Examples.alice).
  - vm_compute; reflexivity.
  - apply list_elem_of_here.
Defined.

Lemma register_user_spec_witness :
  register_user (A:=Z) "alice" "other"
    (snd (register_user "alice" "pw1" (boot Examples.clk))) =
    (Returns DuplicateUser,
     snd (register_user "alice" "pw1" (boot Examples.clk))).
Proof.
  apply (register_user_spec (boot Examples.clk) "alice" "pw1" "other").
Defined.



Lemma create_stokvel_spec_witness :
  fst (create_stokvel "Holiday" "alice" Examples.opened) =
    Returns DuplicateStokvel ↔
  is_Some (stokvels (data Examples.opened) !! "Holiday").
Proof.
  apply (create_stokvel_spec Examples.opened "Holiday" "alice" Examples.alice).
  vm_compute; reflexivity.
Defined.



(** C9, as stated, fails: the savings circle exists and bob, who is not a
    registered user, is not among its members;
    [join_stokvel(data, "SavingsCircle", "bob")] raises [KeyError] and
    returns no result. *)
Lemma join_unregistered_user_raises :
  fst (join_stokvel "SavingsCircle" "bob" Examples.opened) =
    Raises (KeyError "bob") ∧
  ¬ join_as_specified Examples.opened "SavingsCircle" "bob" ∧
  ¬ (succeeded (fst (join_stokvel "SavingsCircle" "bob" Examples.opened)) ∨
     failed (fst (join_stokvel "SavingsCircle" "bob" Examples.opened))).
Proof.
  split; [vm_compute; reflexivity|]. split.
  - intros Hj. unfold join_as_specified in Hj.
    assert (Hs : stokvels (data Examples.opened) !! "SavingsCircle"
                 = Some Examples.circle) by (vm_compute; reflexivity).
    rewrite Hs in Hj. cbn in Hj. destruct Hj as [Hr _].
    vm_compute in Hr. discriminate Hr.
  - intros [[message Hr]|[message Hr]]; vm_compute in Hr; discriminate Hr.
Qed.

Lemma join_stokvel_spec_witness :
  join_as_specified Examples.club "SavingsCircle" "carol" ∧
  (succeeded (fst (join_stokvel "SavingsCircle" "carol" Examples.club)) ∨
   failed (fst (join_stokvel "SavingsCircle" "carol" Examples.club))).
Proof.
  apply join_stokvel_spec. left.
  eexists. vm_compute; reflexivity.
Defined.

Lemma user_balance_untouched_witness :
  ∃ usr',
    users (data (step Examples.opened (Contribute "SavingsCircle" 100 "alice")))
      !! "alice" = Some usr' ∧
    User.balance usr' = User.balance Examples.alice.
Proof.
  apply (proj1 user_balance_untouched).
  vm_compute; reflexivity.
Defined.

(** * Further properties of the ledger *)

(** ** utils.py *)

Lemma hex_digit_range (x : Z) :
  0 <= x < 16 →
  SHA256.hex_digit x ∈ String.list_ascii_of_string "0123456789abcdef".
Proof.
  intros Hx.
  assert (Hc : x = 0 ∨ x = 1 ∨ x = 2 ∨ x = 3 ∨ x = 4 ∨ x = 5 ∨ x = 6 ∨ x = 7 ∨
               x = 8 ∨ x = 9 ∨ x = 10 ∨ x = 11 ∨ x = 12 ∨ x = 13 ∨ x = 14 ∨
               x = 15) by lia.
  clear Hx.
  repeat (destruct Hc as [->|Hc]; [vm_compute; set_solver|]).
  subst. vm_compute; set_solver.
Qed.

Lemma hex32_digits (x : Z) ch :
  ch ∈ SHA256.hex32 x →
  ch ∈ String.list_ascii_of_string "0123456789abcdef".
Proof.
  unfold SHA256.hex32. intros (i & -> & _)%list_elem_of_fmap.
  apply hex_digit_range. apply Z.mod_pos_bound. lia.
Qed.

Lemma list_ascii_of_string_of_list (l : list ascii) :
  String.list_ascii_of_string (String.string_of_list_ascii l) = l.
Proof. induction l as [|ch l IH]; simpl; [reflexivity | now rewrite IH]. Qed.

(** X1.  Whatever the password, [hash_password] returns 64 characters, each
    one of [0123456789abcdef]. *)
Theorem hash_password_is_hex (password : string) :
  String.length (hash_password password) = 64%nat ∧
  ∀ ch, ch ∈ String.list_ascii_of_string (hash_password password) →
        ch ∈ String.list_ascii_of_string "0123456789abcdef".
Proof.
  split; [apply hash_password_length|].
  unfold hash_password, SHA256.hexdigest.
  rewrite list_ascii_of_string_of_list. intros ch.
  rewrite !elem_of_app. intros Hch.
  repeat (destruct Hch as [Hch|Hch]; [now apply hex32_digits in Hch|]).
  now apply hex32_digits in Hch.
Qed.

(** X2.  [verify_password] accepts the digest of the password it is given,
    and accepts nothing else: what it accepts is the 64-character digest
    of that password. *)
Theorem verify_password_round_trip (password hashed : string) :
  verify_password password (hash_password password) = true ∧
  (verify_password password hashed = true →
   hashed = hash_password password ∧ String.length hashed = 64%nat).
Proof.
  split.
  - now apply verify_password_true.
  - intros ->%verify_password_true. split; [reflexivity|].
    apply hash_password_length.
Qed.

(** Case analysis on an operation, through the closed forms. *)
Ltac by_operation o w :=
  destruct o as [u0 p0|u0 p0|s0 u0|s0 u0|s0 a0 u0]; unfold step, exec;
  [ rewrite register_user_eq | rewrite login_user_eq
  | rewrite create_stokvel_eq | rewrite join_stokvel_eq
  | rewrite contribute_eq ];
  repeat match goal with
    | |- context [match ?m !! ?k with _ => _ end] =>
        let E := fresh "E" in destruct (m !! k) eqn:E
    | |- context [match format_2f ?a with _ => _ end] =>
        let E := fresh "F" in
        let text := fresh "amount_2f" in
        destruct (format_2f a) as [text|] eqn:E
    | |- context [if verify_password ?p ?h then _ else _] =>
        destruct (verify_password p h)
    | |- context [if bool_decide ?P then _ else _] =>
        let E := fresh "M" in destruct (bool_decide_reflect P) as [E|E]
    end;
  simpl.

Section FurtherLedger.
Context {A : Type} `{Number A}.
Implicit Types (w : world A) (o : op A) (a : A) (d : Data A).

(** X3.  [validate_amount] returns either an amount and no error, or an
    error and no amount.  The amount it returns is the value [float] read
    and is not [<= 0]; the error is raised exactly when [float] fails or
    reads a value [<= 0]. *)
Theorem validate_amount_result (float : string → option A) amount_str :
  (∃ amount,
     validate_amount float amount_str = (Some amount, None) ∧
     float amount_str = Some amount ∧ num_le amount num_zero = false) ∨
  (∃ message,
     validate_amount float amount_str = (None, Some message) ∧
     (float amount_str = None ∨
      ∃ amount, float amount_str = Some amount ∧
                num_le amount num_zero = true)).
Proof.
  unfold validate_amount.
  destruct (float amount_str) as [amount|]; [|eauto 10].
  destruct (num_le amount num_zero) eqn:Hle; eauto 10.
Qed.

Ltac open_state w :=
  destruct w as [[us ss] file clk t];
  unfold contains, stokvels_getitem, stokvels_setitem, users_getitem,
    users_setitem;
  unfold bind, get_data, set_data, datetime_now, save_data, ret, raise;
  simpl.

Lemma add_user_transaction_eq username transaction w :
  add_user_transaction username transaction w =
    match users (data w) !! username with
    | None => (Returns false, w)
    | Some user =>
        let d' :=
          {| users := <[username :=
               User.set_transactions user
                 (User.transactions user ++ [transaction])]>
               (users (data w));
             stokvels := stokvels (data w) |} in
        (Returns true, World d' (Some d') (clock w) (ticks w))
    end.
Proof.
  unfold add_user_transaction. open_state w.
  destruct (us !! username) as [user|] eqn:Hu; simpl; [|reflexivity].
  rewrite Hu; reflexivity.
Qed.

Lemma get_user_stokvels_eq username w :
  get_user_stokvels username w =
    (Returns (default [] (User.stokvels <$> users (data w) !! username)), w).
Proof.
  unfold get_user_stokvels. open_state w.
  destruct (us !! username); reflexivity.
Qed.


(** X5.  [add_user_transaction] for a username that is not registered
    returns [False] and changes nothing.  For a registered user it returns
    [True], puts the transaction after the ones already there, which stay
    as they were, leaves everything else untouched and saves the state. *)
Theorem add_user_transaction_spec w u transaction :
  match users (data w) !! u with
  | None => add_user_transaction u transaction w = (Returns false, w)
  | Some usr =>
      ∃ w',
        add_user_transaction u transaction w = (Returns true, w') ∧
        users (data w') !! u =
          Some {| User.password := User.password usr;
                  User.balance := User.balance usr;
                  User.transactions := User.transactions usr ++ [transaction];
                  User.stokvels := User.stokvels usr |} ∧
        (∀ v, v ≠ u → users (data w') !! v = users (data w) !! v) ∧
        stokvels (data w') = stokvels (data w) ∧
        DATA_FILE w' = Some (data w')
  end.
Proof.
  rewrite add_user_transaction_eq.
  destruct (users (data w) !! u) as [usr|] eqn:Hu; [|reflexivity].
  eexists. split; [reflexivity|]. cbn. rewrite lookup_insert_eq.
  split; [reflexivity|]. split; [|auto].
  intros v Hv. now rewrite lookup_insert_ne.
Qed.

(** X6.  [contribute] turns a call away without touching anything: when the
    stokvel does not exist (whoever calls, member or not, registered or
    not) it returns [(False, "Stokvel not found.")], and when the stokvel
    exists and the caller is not among its members it returns
    [(False, "You are not a member of this stokvel.")]; the dictionary, the
    data file and the clock are as before. *)
Theorem contribute_rejections w s a u :
  match stokvels (data w) !! s with
  | None => contribute s a u w = (Returns StokvelNotFound, w)
  | Some st =>
      u ∉ Stokvel.members st → contribute s a u w = (Returns NotAMember, w)
  end.
Proof.
  rewrite contribute_eq.
  destruct (stokvels (data w) !! s) as [st|]; [|reflexivity].
  intros Hm. now rewrite bool_decide_false.
Qed.


(** X8.  Write-through.  Whatever the state and the arguments, an
    operation that returns failure leaves the world exactly as it was, a
    login that succeeds as well, and any other operation that returns
    success leaves the data file equal to the dictionary. *)
Theorem operations_write_through w o :
  (failed (fst (exec o w)) → snd (exec o w) = w) ∧
  (succeeded (fst (exec o w)) →
   match o with
   | LoginUser _ _ => snd (exec o w) = w
   | _ => DATA_FILE (snd (exec o w)) = Some (data (snd (exec o w)))
   end).
Proof.
  unfold failed, succeeded.
  destruct o as [u p|u p|s u|s u|s a u]; cbn [exec].
  - rewrite register_user_eq.
    destruct (users (data w) !! u); cbn; split; try reflexivity;
      intros [? [=]].
  - rewrite login_user_eq.
    destruct (users (data w) !! u) as [usr|]; [|cbn; auto].
    destruct (verify_password _ _); cbn; auto.
  - rewrite create_stokvel_eq.
    destruct (stokvels (data w) !! s); [cbn; split; [auto|intros [? [=]]]|].
    destruct (users (data w) !! u); cbn; split; try reflexivity;
      intros [? [=]].
  - rewrite join_stokvel_eq.
    destruct (stokvels (data w) !! s) as [st|];
      [|cbn; split; [auto|intros [? [=]]]].
    destruct (bool_decide _); [cbn; split; [auto|intros [? [=]]]|].
    destruct (users (data w) !! u); cbn; split; try reflexivity;
      intros [? [=]].
  - rewrite contribute_eq.
    destruct (stokvels (data w) !! s) as [st|];
      [|cbn; split; [auto|intros [? [=]]]].
    destruct (bool_decide _); [|cbn; split; [auto|intros [? [=]]]].
    destruct (format_2f a); [|cbn; split; intros [? [=]]].
    destruct (users (data w) !! u); cbn; split; try reflexivity;
      intros [? [=]].
Qed.

(** X9.  Registration followed by login.  After [register_user] has
    registered a new username, [login_user] with the same password
    succeeds, and with a password of another digest it returns
    [(False, "Invalid credentials.")]. *)
Theorem register_then_login w u p q :
  users (data w) !! u = None →
  fst (login_user u p (snd (register_user u p w))) =
    Returns (true, "Welcome back, " +:+ u +:+ "!") ∧
  (hash_password q ≠ hash_password p →
   fst (login_user u q (snd (register_user u p w))) =
     Returns InvalidCredentials).
Proof.
  intros Hu. rewrite !login_user_eq, register_user_eq, Hu.
  cbn [fst snd data users]. rewrite lookup_insert_eq.
  unfold new_user; cbn [User.password]. split.
  - now rewrite (proj2 (verify_password_true p (hash_password p)) eq_refl).
  - intros Hq. destruct (verify_password q (hash_password p)) eqn:V;
      [|reflexivity].
    apply verify_password_true in V. congruence.
Qed.

(** X10.  Creation followed by a contribution.  When a registered user
    creates a stokvel under a new name and then contributes to it an
    amount that [:.2f] renders, the contribution succeeds and the summary
    shows one member, the balance [0 + amount] and, as total of the
    contributions, [sum] of the one amount. *)
Theorem create_then_contribute w s c usr a amount_2f :
  users (data w) !! c = Some usr →
  stokvels (data w) !! s = None →
  format_2f a = Some amount_2f →
  let w1 := snd (create_stokvel s c w) in
  let w2 := snd (contribute s a c w1) in
  fst (contribute s a c w1) =
    Returns (true, "You contributed R" +:+ amount_2f +:+ " to "
                   +:+ s +:+ ".") ∧
  ∃ sm,
    get_stokvel_summary s w2 = (Returns (Some sm), w2) ∧
    Summary.members sm = [c] ∧
    Summary.member_count sm = 1%nat ∧
    Summary.balance sm = num_add num_zero a ∧
    Summary.total_contributions sm = num_sum [a].
Proof.
  intros Hu Hs Hf w1 w2. subst w2 w1.
  rewrite get_stokvel_summary_eq, !contribute_eq, create_stokvel_eq, Hs, Hu.
  cbn. rewrite !lookup_insert_eq. cbn.
  rewrite bool_decide_true by apply list_elem_of_here.
  rewrite Hf.
  cbn. split; [reflexivity|]. rewrite lookup_insert_eq.
  eexists. split; [reflexivity|]. cbn. auto.
Qed.




End FurtherLedger.

(** ** What every run keeps *)

Section KeptByRuns.
Context {A : Type} `{Number A}.
Implicit Types (w : world A) (o : op A) (d : Data A).

Lemma run_app (ops ops' : list (op A)) w :
  run (ops ++ ops') w = run ops' (run ops w).
Proof. unfold run. apply fold_left_app. Qed.

Lemma user_continues_refl (usr : User.t A) : user_continues usr usr.
Proof. repeat split; reflexivity. Qed.

Lemma stokvel_continues_refl (st : Stokvel.t A) : stokvel_continues st st.
Proof. repeat split; reflexivity. Qed.

Lemma continues_refl d : continues d d.
Proof.
  split; intros; eauto using user_continues_refl, stokvel_continues_refl.
Qed.

Lemma continues_trans d1 d2 d3 :
  continues d1 d2 → continues d2 d3 → continues d1 d3.
Proof.
  intros [Hu12 Hs12] [Hu23 Hs23]. split.
  - intros u usr Hu.
    destruct (Hu12 _ _ Hu) as (usr2 & Hu2 & Hp & Hb & Ht & Hl).
    destruct (Hu23 _ _ Hu2) as (usr3 & Hu3 & Hp' & Hb' & Ht' & Hl').
    exists usr3. split; [assumption|].
    repeat split; try congruence; etrans; eauto.
  - intros s st Hs.
    destruct (Hs12 _ _ Hs) as (st2 & Hs2 & Hd & Hc & Hm & Hl).
    destruct (Hs23 _ _ Hs2) as (st3 & Hs3 & Hd' & Hc' & Hm' & Hl').
    exists st3. split; [assumption|].
    repeat split; try congruence; etrans; eauto.
Qed.

(** Overwriting one key with a later version of its value keeps the map. *)
Lemma kept_insert {V} (R : V → V → Prop) (m : gmap string V) k v' :
  (∀ x, R x x) →
  (∀ v, m !! k = Some v → R v v') →
  ∀ j x, m !! j = Some x → ∃ x', <[k := v']> m !! j = Some x' ∧ R x x'.
Proof.
  intros Hrefl Hk j x Hj. destruct (decide (k = j)) as [->|Hne].
  - rewrite lookup_insert_eq. eauto.
  - rewrite lookup_insert_ne by done. eauto.
Qed.

Lemma continues_step w o : continues (data w) (data (step w o)).
Proof.
  by_operation o w; try apply continues_refl; split; simpl;
    try (intros; eauto using user_continues_refl, stokvel_continues_refl; fail);
    first [ apply (kept_insert user_continues); [apply user_continues_refl|]
          | apply (kept_insert stokvel_continues);
            [apply stokvel_continues_refl|] ];
    intros v Hv; simplify_eq;
    repeat split; simpl; try reflexivity; apply prefix_app_r; reflexivity.
Qed.

Lemma creator_first_step w o :
  creator_first (data w) → creator_first (data (step w o)).
Proof.
  intros Hinv.
  by_operation o w; try exact Hinv;
    intros s st; simpl; rewrite lookup_insert; case_decide; simplify_eq;
    try (apply Hinv; fail); intros [= <-]; simpl; try reflexivity;
    try (eapply Hinv; eassumption);
    (pose proof (Hinv _ _ ltac:(eassumption)) as Hh;
     destruct (Stokvel.members _); [discriminate Hh | exact Hh]).
Qed.

Lemma contributors_step w o :
  contributors_are_members (data w) →
  contributors_are_members (data (step w o)).
Proof.
  intros Hinv.
  by_operation o w; try exact Hinv;
    intros s st c; simpl; rewrite lookup_insert; case_decide; simplify_eq;
    try (apply Hinv; fail); intros [= <-]; simpl; intros Hc;
    try (inversion Hc; fail);
    try (apply elem_of_app; left; eapply Hinv; eassumption);
    (apply elem_of_app in Hc as [Hc|Hc%list_elem_of_singleton];
     [eapply Hinv; eassumption | now subst c]).
Qed.

Lemma NoDup_snoc {X} (l : list X) (x : X) :
  NoDup l → x ∉ l → NoDup (l ++ [x]).
Proof.
  intros Hl Hx. apply NoDup_app. split; [assumption|]. split.
  - intros y Hy ->%list_elem_of_singleton. contradiction.
  - apply NoDup_singleton.
Qed.

Lemma duplicate_free_step w o :
  consistent (data w) → duplicate_free (data w) →
  duplicate_free (data (step w o)).
Proof.
  intros Hcon [Hm Hl].
  by_operation o w; try (split; assumption); split;
    intros k v; simpl;
    try (now apply Hm); try (now apply Hl);
    rewrite lookup_insert; case_decide; simplify_eq;
    try (apply Hm; fail); try (apply Hl; fail);
    intros [= <-]; simpl;
    try (eapply Hm; eassumption); try (eapply Hl; eassumption);
    try (apply NoDup_nil_2); try (apply NoDup_singleton);
    (apply NoDup_snoc; [first [eapply Hm | eapply Hl]; eassumption|]);
    try assumption;
    intros Hin; destruct (Hcon _ _ _ ltac:(eassumption) Hin) as (st & Hst & Hu);
    simplify_eq; contradiction.
Qed.

Lemma duplicate_free_run clk (ops : list (op A)) :
  duplicate_free (data (run ops (boot clk))).
Proof.
  induction ops as [|o ops IH] using rev_ind.
  - split; intros k v Hk; simpl in Hk; rewrite lookup_empty in Hk;
      discriminate.
  - rewrite run_snoc. apply duplicate_free_step; [apply consistent_run|].
    exact IH.
Qed.

(** X11.  In every state reached from the empty store no stokvel lists a
    member twice and no user lists a stokvel twice: the lists stand for
    sets. *)
Theorem lists_hold_no_duplicates clk (ops : list (op A)) :
  duplicate_free (data (run ops (boot clk))).
Proof. apply duplicate_free_run. Qed.

(** X12.  In every state reached from the empty store the first member of
    every stokvel is the user recorded as its creator. *)
Theorem creator_is_first_member clk (ops : list (op A)) :
  creator_first (data (run ops (boot clk))).
Proof.
  induction ops as [|o ops IH] using rev_ind.
  - intros k v Hk; simpl in Hk; rewrite lookup_empty in Hk; discriminate.
  - rewrite run_snoc. now apply creator_first_step.
Qed.

(** X13.  In every state reached from the empty store the user named in a
    contribution record of a stokvel is among the members of that
    stokvel. *)
Theorem contributors_are_members_always clk (ops : list (op A)) :
  contributors_are_members (data (run ops (boot clk))).
Proof.
  induction ops as [|o ops IH] using rev_ind.
  - intros k v c Hk; simpl in Hk; rewrite lookup_empty in Hk; discriminate.
  - rewrite run_snoc. now apply contributors_step.
Qed.

(** X14.  Nothing is ever removed or rewritten.  From any state and along
    any sequence of operations, returned or raised, every user and every
    stokvel stays, with the same credential, user balance, creation date
    and creator, and the transactions and stokvels of a user and the
    members and contributions of a stokvel only grow at the end. *)
Theorem runs_only_append w (ops : list (op A)) :
  continues (data w) (data (run ops w)).
Proof.
  induction ops as [|o ops IH] using rev_ind.
  - apply continues_refl.
  - rewrite run_snoc. eapply continues_trans; [exact IH|].
    apply continues_step.
Qed.

(** X15.  In every state reached from the empty store [get_user_stokvels]
    returns, without changing anything, the stokvels of the user (no
    stokvels for a username that is not registered); no name comes twice,
    and for each name [get_stokvel_summary] finds the stokvel, with the
    user among its members. *)
Theorem listed_stokvels_resolve clk (ops : list (op A)) u :
  let w := run ops (boot clk) in
  ∃ names,
    get_user_stokvels u w = (Returns names, w) ∧
    (users (data w) !! u = None → names = []) ∧
    NoDup names ∧
    ∀ s, s ∈ names →
      ∃ sm,
        get_stokvel_summary s w = (Returns (Some sm), w) ∧
        u ∈ Summary.members sm.
Proof.
  intros w. rewrite get_user_stokvels_eq. eexists. split; [reflexivity|].
  destruct (users (data w) !! u) as [usr|] eqn:Hu.
  - split; [intros [=]|]. split.
    + exact (proj2 (duplicate_free_run clk ops) u usr Hu).
    + intros s Hs. change (s ∈ User.stokvels usr) in Hs.
      destruct (consistent_run clk ops u usr s Hu Hs) as (st & Hst & Hm).
      rewrite get_stokvel_summary_eq. fold w in Hst. rewrite Hst.
      eexists. split; [reflexivity|]. cbn. exact Hm.
  - split; [reflexivity|]. split; [apply NoDup_nil_2|].
    intros s Hs. inversion Hs.
Qed.

End KeptByRuns.

(** The calls the command line makes, on amounts that [:.2f] renders. *)

Section Guarded.
Context {A : Type} `{Number A} `{!AlwaysRenders A}.
Implicit Types (w : world A) (cu : option string) (o : op A).

(** Case analysis on an operation whose amount has a rendering. *)
Ltac by_guarded o w :=
  by_operation o w;
  try match goal with
      | F : format_2f ?a = None |- _ =>
          exfalso; destruct (always_renders a) as [? ?]; congruence
      end.

Lemma guarded_returns w o :
  guarded w o → ∃ r, fst (exec o w) = Returns r.
Proof.
  by_guarded o w; unfold guarded; intros Hg; eauto; try contradiction;
    first [ destruct Hg as [_ [? ?]] | destruct Hg as [[? ?] _] ];
    simplify_eq.
Qed.

Lemma registered_step w o u :
  is_Some (users (data w) !! u) → is_Some (users (data (step w o)) !! u).
Proof.
  intros [usr Hu].
  destruct (step_keeps_user w o u usr Hu) as (usr' & Hu' & _). eauto.
Qed.

Lemma reachable_step w o : reachable w → reachable (step w o).
Proof.
  intros (clk & ops & ->). exists clk, (ops ++ [o]). now rewrite run_snoc.
Qed.

Lemma positive_step w o :
  positive_contributions (data w) → guarded w o →
  positive_contributions (data (step w o)).
Proof.
  intros Hinv.
  by_guarded o w; unfold guarded; intros Hg; try exact Hinv;
    try contradiction;
    intros s st c; simpl; rewrite lookup_insert; case_decide; simplify_eq;
    try (apply Hinv; fail); intros [= <-]; simpl; intros Hc;
    try (inversion Hc; fail);
    (apply elem_of_app in Hc as [Hc|Hc%list_elem_of_singleton];
     [eapply Hinv; eassumption | subst c; apply Hg]).
Qed.

Lemma in_sync_step w o : in_sync w → guarded w o → in_sync (step w o).
Proof.
  intros Hinv.
  by_guarded o w; unfold guarded; intros Hg; try exact Hinv;
    try contradiction; try (left; reflexivity);
    first [ destruct Hg as [_ [? ?]] | destruct Hg as [[? ?] _] ];
    simplify_eq.
Qed.

Lemma nameless_step w o :
  users (data w) !! "" = None → stokvels (data w) !! "" = None →
  guarded w o →
  users (data (step w o)) !! "" = None ∧
  stokvels (data (step w o)) !! "" = None.
Proof.
  intros Hu Hs.
  by_guarded o w; unfold guarded; intros Hg; try (split; assumption);
    try contradiction;
    (split; [try assumption | try assumption]);
    rewrite lookup_insert_ne; try assumption;
    try (intros <-; simplify_eq; fail);
    try (intros ->; simplify_eq; fail);
    try (apply Hg).
Qed.

Lemma sole_member_step w o :
  sole_member (data w) → guarded w o → sole_member (data (step w o)).
Proof.
  intros Hinv Hg s st Hs.
  assert (Hold : ∀ st0, stokvels (data w) !! s = Some st0 →
            Stokvel.members st = Stokvel.members st0 →
            Stokvel.created_by st = Stokvel.created_by st0 →
            Stokvel.members st = [Stokvel.created_by st] ∧
            is_Some (users (data (step w o)) !! Stokvel.created_by st)).
  { intros st0 Hs0 Hm Hc. destruct (Hinv _ _ Hs0) as [Hm0 Hr0].
    split; [congruence|]. rewrite Hc. now apply registered_step. }
  revert Hg Hs Hold.
  by_guarded o w; unfold guarded; intros Hg; try contradiction;
    try (intros Hs Hold; eapply Hold; eauto; fail);
    rewrite lookup_insert; case_decide; simplify_eq;
    try (intros Hs Hold; eapply Hold; eauto; fail);
    intros [= <-] Hold; simpl;
    try (eapply Hold; eauto; fail).
  - split; [reflexivity|]. rewrite lookup_insert_eq. eauto.
  - split; [reflexivity|]. apply Hg.
Qed.

(** A guarded call returns and keeps what a session keeps. *)
Lemma kept_step w cu o :
  kept_state w cu → guarded w o →
  (∃ r, fst (exec o w) = Returns r) ∧ kept_state (step w o) cu.
Proof.
  intros (Hcu & Hreach & Hpos & Hsync & Hsole & Hnu & Hns) Hg.
  split; [now apply guarded_returns|].
  destruct (nameless_step w o Hnu Hns Hg) as [Hnu' Hns'].
  split; [|split; [|split; [|split; [|split; [|split]]]]]; try assumption.
  - intros u Hu. apply registered_step. now apply Hcu.
  - now apply reachable_step.
  - now apply positive_step.
  - now apply in_sync_step.
  - now apply sole_member_step.
Qed.


End Guarded.

(** ** Sessions of the command line

    The amounts of a session are what [float] returns: the numeric type
    is one every value of which [:.2f] renders, as the floats are. *)

Section Sessions.
Context {A : Type} `{Number A} `{Builtins A} `{!AlwaysRenders A}.
Implicit Types (w : world A) (cu : option string) (o : op A).

(** *** Rules for [safe] *)

Lemma safe_bind {X Y} (m : CLI.C A X) (k : X → CLI.C A Y) R Q w cu :
  safe m R w cu →
  (∀ x w' cu', R x w' cu' → safe (k x) Q w' cu') →
  safe (CLI.bind m k) Q w cu.
Proof.
  intros Hm Hk lines out. unfold CLI.bind. specialize (Hm lines out).
  destruct (m _) as [[x|e] [w' cu' lines' out']]; [|exact Hm].
  apply Hk. exact Hm.
Qed.

Lemma safe_ret {X} (x : X) (Q : X → world A → option string → Prop) w cu :
  Q x w cu → safe (CLI.ret x) Q w cu.
Proof. intros HQ lines out. exact HQ. Qed.

Lemma safe_print text (Q : unit → world A → option string → Prop) w cu :
  Q tt w cu → safe (StokWELLCLI.print text) Q w cu.
Proof. intros HQ lines out. exact HQ. Qed.

Lemma safe_print_then {Y} text (k : CLI.C A Y) Q w cu :
  safe k Q w cu → safe (StokWELLCLI.print text >>> k) Q w cu.
Proof.
  intros Hk.
  apply (safe_bind _ _ (λ _ w' cu', w' = w ∧ cu' = cu));
    [now apply safe_print|].
  intros _ w' cu' [-> ->]. exact Hk.
Qed.

Lemma safe_input_then {Y} prompt (k : string → CLI.C A Y) Q w cu :
  kept_state w cu →
  (∀ line, safe (k line) Q w cu) →
  safe (line <<- StokWELLCLI.input prompt ;; k line) Q w cu.
Proof.
  intros Hkept Hk lines out. unfold CLI.bind, StokWELLCLI.input. cbn.
  destruct lines as [|line rest]; cbn.
  - split; [right; reflexivity | exact Hkept].
  - apply Hk.
Qed.

Lemma safe_call_then {X Y} (m : M A X) (k : X → CLI.C A Y) Q w cu x w' :
  m w = (Returns x, w') →
  safe (k x) Q w' cu →
  safe (r <<- StokWELLCLI.call m ;; k r) Q w cu.
Proof.
  intros Hm Hk lines out. unfold CLI.bind, StokWELLCLI.call. cbn.
  rewrite Hm. apply Hk.
Qed.

Lemma safe_rendered_then {Y} (x : A) (k : string → CLI.C A Y) Q w cu :
  (∀ text, safe (k text) Q w cu) →
  safe (text <<- StokWELLCLI.rendered_2f x ;; k text) Q w cu.
Proof.
  intros Hk lines out. unfold CLI.bind, StokWELLCLI.rendered_2f.
  destruct (always_renders x) as [text ->]. cbn. apply Hk.
Qed.

Lemma safe_exit {X} (Q : X → world A → option string → Prop) w cu :
  kept_state w cu → safe (CLI.raise (CLI.SystemExit 0)) Q w cu.
Proof. intros Hkept lines out. cbn. split; [left; reflexivity | exact Hkept]. Qed.

Lemma safe_for_each {X} (xs : list X) (body : X → CLI.C A unit) w cu :
  (∀ x, x ∈ xs → safe (body x) (λ _ w' cu', w' = w ∧ cu' = cu) w cu) →
  safe (StokWELLCLI.for_each xs body) (λ _ w' cu', w' = w ∧ cu' = cu) w cu.
Proof.
  induction xs as [|x xs IH]; intros Hbody; cbn.
  - now apply safe_ret.
  - apply (safe_bind _ _ (λ _ w' cu', w' = w ∧ cu' = cu)).
    + apply Hbody. apply list_elem_of_here.
    + intros _ w' cu' [-> ->]. apply IH.
      intros y Hy. apply Hbody. now apply list_elem_of_further.
Qed.

(** *** The methods *)

Lemma guarded_call w cu o :
  kept_state w cu → guarded w o →
  ∃ r, exec o w = (Returns r, step w o) ∧ kept_state (step w o) cu.
Proof.
  intros Hk Hg. destruct (kept_step w cu o Hk Hg) as [[r Hr] Hk'].
  exists r. split; [|exact Hk'].
  unfold step. destruct (exec o w) as [r' w']. cbn in *. now subst.
Qed.

Lemma kept_state_user w cu cu' :
  kept_state w cu →
  (∀ u, cu' = Some u → is_Some (users (data w) !! u)) →
  kept_state w cu'.
Proof. intros (_ & Hrest) Hcu. split; assumption. Qed.

Lemma users_getitem_found w u usr :
  users (data w) !! u = Some usr → users_getitem u w = (Returns usr, w).
Proof.
  intros Hu. unfold users_getitem, bind, get_data. cbn. now rewrite Hu.
Qed.

Lemma stokvels_getitem_found w s st :
  stokvels (data w) !! s = Some st → stokvels_getitem s w = (Returns st, w).
Proof.
  intros Hs. unfold stokvels_getitem, bind, get_data. cbn. now rewrite Hs.
Qed.

Lemma safe_set_current_user u (Q : unit → world A → option string → Prop)
    w cu :
  Q tt w u → safe (StokWELLCLI.set_current_user u) Q w cu.
Proof. intros HQ lines out. exact HQ. Qed.

Lemma safe_register w cu :
  kept_state w cu → safe StokWELLCLI.register (λ _, kept_state) w cu.
Proof.
  intros Hk. unfold StokWELLCLI.register.
  apply safe_print_then. apply safe_input_then; [exact Hk|]. intros line.
  destruct (String.eqb (str_strip line) "") eqn:E; [now apply safe_print|].
  apply safe_input_then; [exact Hk|]. intros line2.
  destruct (String.eqb (str_strip line2) "") eqn:E2; [now apply safe_print|].
  destruct (guarded_call w cu
              (RegisterUser (str_strip line) (str_strip line2)) Hk)
    as (r & Hr & Hk'); [now apply String.eqb_neq|].
  eapply safe_call_then; [exact Hr|]. now apply safe_print.
Qed.

Lemma safe_login w cu :
  kept_state w cu → safe StokWELLCLI.login (λ _, kept_state) w cu.
Proof.
  intros Hk. unfold StokWELLCLI.login.
  apply safe_print_then. apply safe_input_then; [exact Hk|]. intros line.
  apply safe_input_then; [exact Hk|]. intros line2.
  pose proof (login_user_eq (str_strip line) (str_strip line2) w) as Hl.
  destruct (users (data w) !! str_strip line) as [usr|] eqn:Hu.
  - destruct (verify_password _ _);
      (eapply safe_call_then; [exact Hl|]); cbn; apply safe_print_then.
    + apply safe_set_current_user. apply (kept_state_user _ _ _ Hk).
      intros u [= <-]. eauto.
    + now apply safe_ret.
  - eapply safe_call_then; [exact Hl|]. cbn.
    apply safe_print_then. now apply safe_ret.
Qed.

Lemma safe_logout w user :
  kept_state w (Some user) →
  safe (StokWELLCLI.logout user) (λ _, kept_state) w (Some user).
Proof.
  intros Hk. unfold StokWELLCLI.logout. apply safe_print_then.
  apply safe_set_current_user. apply (kept_state_user _ _ _ Hk).
  intros u [=].
Qed.

Lemma safe_create_stokvel w user :
  kept_state w (Some user) →
  safe (StokWELLCLI.create_stokvel user) (λ _, kept_state) w (Some user).
Proof.
  intros Hk. unfold StokWELLCLI.create_stokvel.
  apply safe_print_then. apply safe_input_then; [exact Hk|]. intros line.
  destruct (String.eqb (str_strip line) "") eqn:E; [now apply safe_print|].
  destruct (guarded_call w (Some user)
              (CreateStokvel (str_strip line) user) Hk)
    as (r & Hr & Hk').
  { split; [now apply String.eqb_neq|]. now apply Hk. }
  eapply safe_call_then; [exact Hr|]. now apply safe_print.
Qed.

Lemma safe_prints {X} (xs : list X) (line : X → string) w cu :
  safe (StokWELLCLI.for_each xs (λ x, StokWELLCLI.print (line x)))
       (λ _ w' cu', w' = w ∧ cu' = cu) w cu.
Proof. apply safe_for_each. intros x _. now apply safe_print. Qed.

Lemma safe_view_dashboard w user :
  kept_state w (Some user) →
  safe (StokWELLCLI.view_dashboard user) (λ _, kept_state) w (Some user).
Proof.
  intros Hk. unfold StokWELLCLI.view_dashboard.
  destruct (proj1 Hk user eq_refl) as [usr Hu].
  apply safe_print_then.
  eapply safe_call_then; [apply users_getitem_found; exact Hu|].
  apply safe_rendered_then; intros balance_2f.
  apply safe_print_then. apply safe_print_then.
  apply (safe_bind _ _ (λ _ w' cu', w' = w ∧ cu' = Some user)).
  { destruct (User.transactions usr); [now apply safe_print|].
    apply safe_for_each. intros [i tx] _. now apply safe_print. }
  intros _ w' cu' [-> ->]. apply safe_print_then.
  apply (safe_bind _ _ (λ _ w' cu', w' = w ∧ cu' = Some user)).
  { assert (Hall : ∀ s, s ∈ User.stokvels usr →
                     is_Some (stokvels (data w) !! s)).
    { intros s Hs. destruct Hk as (_ & (clk & ops & ->) & _).
      destruct (consistent_run clk ops user usr s Hu Hs) as (st & Hst & _).
      eauto. }
    destruct (User.stokvels usr) as [|s0 rest] eqn:El;
      [now apply safe_print|].
    apply safe_for_each. intros s Hs.
    destruct (Hall s Hs) as [st Hst].
    eapply safe_call_then; [apply stokvels_getitem_found; exact Hst|].
    apply safe_print_then. apply safe_rendered_then; intros stokvel_2f.
    do 2 apply safe_print_then. now apply safe_print. }
  intros _ w' cu' [-> ->]. now apply safe_print.
Qed.

Lemma safe_contribute_to_stokvel w user :
  kept_state w (Some user) →
  safe (StokWELLCLI.contribute_to_stokvel user) (λ _, kept_state)
       w (Some user).
Proof.
  intros Hk. unfold StokWELLCLI.contribute_to_stokvel.
  destruct (proj1 Hk user eq_refl) as [usr Hu].
  apply safe_print_then.
  eapply safe_call_then; [apply users_getitem_found; exact Hu|].
  destruct (User.stokvels usr) as [|s0 rest] eqn:El; [now apply safe_print|].
  apply safe_print_then.
  apply (safe_bind _ _ (λ _ w' cu', w' = w ∧ cu' = Some user)).
  { apply safe_for_each. intros [i s] _. now apply safe_print. }
  intros _ w' cu' [-> ->].
  apply safe_input_then; [exact Hk|]. intros line.
  destruct (int_of_str line) as [number|]; [|now apply safe_print].
  destruct ((number - 1 <? 0) || _) eqn:Hb; [now apply safe_print|].
  apply orb_false_iff in Hb as [Hlo Hhi].
  apply Z.ltb_ge in Hlo. apply Z.leb_gt in Hhi.
  destruct ((s0 :: rest) !! Z.to_nat (number - 1)) as [name|] eqn:Hn.
  2:{ apply lookup_ge_None in Hn. lia. }
  apply safe_input_then; [exact Hk|]. intros line2.
  unfold validate_amount.
  destruct (float_of_str (str_strip line2)) as [amount|];
    [|now apply safe_print].
  destruct (num_le amount num_zero) eqn:Hle; [now apply safe_print|].
  cbn.
  destruct (guarded_call w (Some user) (Contribute name amount user) Hk)
    as (r & Hr & Hk').
  { split; [eauto | exact Hle]. }
  eapply safe_call_then; [exact Hr|]. now apply safe_print.
Qed.

Lemma safe_show_auth_menu w cu :
  kept_state w cu → safe StokWELLCLI.show_auth_menu (λ _, kept_state) w cu.
Proof.
  intros Hk. unfold StokWELLCLI.show_auth_menu.
  do 4 apply safe_print_then.
  apply safe_input_then; [exact Hk|]. intros line.
  destruct (String.eqb _ "1"); [now apply safe_register|].
  destruct (String.eqb _ "2"); [now apply safe_login|].
  destruct (String.eqb _ "3");
    [apply safe_print_then; now apply safe_exit | now apply safe_print].
Qed.

Lemma safe_show_main_menu w user :
  kept_state w (Some user) →
  safe (StokWELLCLI.show_main_menu user) (λ _, kept_state) w (Some user).
Proof.
  intros Hk. unfold StokWELLCLI.show_main_menu.
  do 6 apply safe_print_then.
  apply safe_input_then; [exact Hk|]. intros line.
  destruct (String.eqb _ "1"); [now apply safe_view_dashboard|].
  destruct (String.eqb _ "2"); [now apply safe_create_stokvel|].
  destruct (String.eqb _ "3"); [now apply safe_contribute_to_stokvel|].
  destruct (String.eqb _ "4"); [now apply safe_logout|].
  destruct (String.eqb _ "5");
    [apply safe_print_then; now apply safe_exit | now apply safe_print].
Qed.

Lemma safe_turn w cu :
  kept_state w cu → safe StokWELLCLI.turn (λ _, kept_state) w cu.
Proof.
  intros Hk lines out. unfold StokWELLCLI.turn, CLI.bind.
  cbn. destruct cu as [user|]; [|now apply safe_show_auth_menu].
  destruct (String.eqb user ""); [now apply safe_show_auth_menu|].
  now apply safe_show_main_menu.
Qed.

Lemma safe_turns n w cu :
  kept_state w cu → safe (StokWELLCLI.turns n) (λ _, kept_state) w cu.
Proof.
  revert w cu. induction n as [|n IH]; intros w cu Hk; cbn.
  - now apply safe_ret.
  - eapply safe_bind; [now apply safe_turn|].
    intros [] w' cu' Hk'. now apply IH.
Qed.

Lemma kept_boot clk : kept_state (boot clk : world A) None.
Proof.
  split; [intros u [=]|]. split; [exists clk, []; reflexivity|].
  split; [intros s st c Hs; simpl in Hs; rewrite lookup_empty in Hs;
          discriminate|].
  split; [right; split; reflexivity|].
  split; [intros s st Hs; simpl in Hs; rewrite lookup_empty in Hs;
          discriminate|].
  split; apply lookup_empty.
Qed.

Lemma safe_run n clk :
  safe (StokWELLCLI.run n) (λ _, kept_state) (boot clk) None.
Proof.
  unfold StokWELLCLI.run. do 3 apply safe_print_then.
  apply safe_turns. apply kept_boot.
Qed.

(** *** Rules for [reads] *)

Lemma reads_weaken {X} k k' (m : CLI.C A X) :
  reads k m → (k' ≤ k)%nat → reads k' m.
Proof. intros Hm Hle c x c' Hc. specialize (Hm c x c' Hc). lia. Qed.

Lemma reads_bind {X Y} k1 k2 (m : CLI.C A X) (f : X → CLI.C A Y) :
  reads k1 m → (∀ x, reads k2 (f x)) → reads (k1 + k2) (CLI.bind m f).
Proof.
  intros Hm Hf c y c'' Hc. unfold CLI.bind in Hc.
  destruct (m c) as [[x|e] c'] eqn:Em; [|discriminate].
  specialize (Hm c x c' Em). specialize (Hf x c' y c'' Hc). lia.
Qed.

Lemma reads_bind0 {X Y} (m : CLI.C A X) (f : X → CLI.C A Y) :
  reads 0 m → (∀ x, reads 0 (f x)) → reads 0 (CLI.bind m f).
Proof. intros Hm Hf. now apply (reads_bind 0 0). Qed.

Lemma reads_ret {X} (x : X) : reads 0 (CLI.ret (A:=A) x).
Proof. intros c y c' [= _ <-]. lia. Qed.

Lemma reads_raise {X} k e : reads k (CLI.raise (A:=A) (X:=X) e).
Proof. intros c y c' [=]. Qed.

Lemma reads_print text : reads 0 (StokWELLCLI.print (A:=A) text).
Proof. intros c y c' [= _ <-]. cbn. lia. Qed.

Lemma reads_input prompt : reads 1 (StokWELLCLI.input (A:=A) prompt).
Proof.
  intros c y c'. unfold StokWELLCLI.input.
  destruct (CLI.stdin c) as [|line rest]; [discriminate|].
  intros [= _ <-]. cbn. lia.
Qed.

Lemma reads_call {X} (m : M A X) : reads 0 (StokWELLCLI.call m).
Proof.
  intros c y c'. unfold StokWELLCLI.call.
  destruct (m (CLI.env c)) as [[x|e] w']; [|discriminate].
  intros [= _ <-]. cbn. lia.
Qed.

Lemma reads_rendered_2f (x : A) : reads 0 (StokWELLCLI.rendered_2f x).
Proof.
  unfold StokWELLCLI.rendered_2f.
  destruct (format_2f x); [apply reads_ret | apply reads_raise].
Qed.

Lemma reads_set_current_user u :
  reads 0 (StokWELLCLI.set_current_user (A:=A) u).
Proof. intros c y c' [= _ <-]. cbn. lia. Qed.

Lemma reads_for_each {X} (xs : list X) (body : X → CLI.C A unit) :
  (∀ x, reads 0 (body x)) → reads 0 (StokWELLCLI.for_each xs body).
Proof.
  intros Hbody. induction xs as [|x xs IH]; cbn.
  - apply reads_ret.
  - apply reads_bind0; [apply Hbody | intros _; exact IH].
Qed.

Ltac reads_nothing :=
  repeat first
    [ apply reads_print | apply reads_ret | apply reads_raise
    | apply reads_call | apply reads_set_current_user
    | apply reads_rendered_2f
    | apply (reads_weaken 1 0); [apply reads_input | lia]
    | apply reads_for_each; intros ?
    | apply reads_bind0; [|intros ?]
    | match goal with
      | |- reads _ (if ?b then _ else _) => destruct b
      | |- reads _ (match ?x with _ => _ end) => destruct x
      | |- reads _ (let (_, _) := ?x in _) => destruct x
      end ].

Lemma reads_turn : reads 1 (StokWELLCLI.turn (A:=A)).
Proof.
  assert (Hauth : reads 1 (StokWELLCLI.show_auth_menu (A:=A))).
  { unfold StokWELLCLI.show_auth_menu.
    do 4 (apply (reads_bind 0 1); [apply reads_print | intros _]).
    apply (reads_bind 1 0); [apply reads_input | intros line].
    unfold StokWELLCLI.register, StokWELLCLI.login. reads_nothing. }
  assert (Hmain : ∀ user, reads 1 (StokWELLCLI.show_main_menu (A:=A) user)).
  { intros user. unfold StokWELLCLI.show_main_menu.
    do 6 (apply (reads_bind 0 1); [apply reads_print | intros _]).
    apply (reads_bind 1 0); [apply reads_input | intros line].
    unfold StokWELLCLI.view_dashboard, StokWELLCLI.create_stokvel,
      StokWELLCLI.contribute_to_stokvel, StokWELLCLI.logout.
    reads_nothing. }
  unfold StokWELLCLI.turn.
  apply (reads_bind 0 1).
  - intros c y c' [= _ <-]. lia.
  - intros [user|]; [|exact Hauth].
    destruct (String.eqb user ""); [exact Hauth | apply Hmain].
Qed.

Lemma reads_turns n : reads n (StokWELLCLI.turns (A:=A) n).
Proof.
  induction n as [|n IH]; cbn.
  - apply reads_ret.
  - apply (reads_bind 1 n); [apply reads_turn | intros _; exact IH].
Qed.

Lemma reads_run n : reads n (StokWELLCLI.run (A:=A) n).
Proof.
  unfold StokWELLCLI.run.
  do 3 (apply (reads_bind 0 n); [apply reads_print | intros _]).
  apply reads_turns.
Qed.

(** *** Whole sessions *)

Lemma session_kept clk lines n :
  let r := StokWELLCLI.run n (StokWELLCLI.start (A:=A) clk lines) in
  kept_state (CLI.env (snd r)) (CLI.current_user (snd r)) ∧
  match fst r with
  | CLI.Done _ => True
  | CLI.Stopped e => benign e
  end.
Proof.
  intros r. pose proof (safe_run n clk lines []) as Hs.
  unfold StokWELLCLI.start in r. fold r in Hs.
  destruct r as [[x|e] c']; cbn; tauto.
Qed.

(** X16.  A session of the command line never ends by an exception of the
    ledger or of the front end ([KeyError], [OverflowError], [TypeError],
    [IndexError]): whatever is typed, and however many turns of the menu
    loop are taken, the run is still going or has ended by [sys.exit(0)]
    or at the end of the input. *)
Theorem command_line_never_crashes clk lines n :
  match fst (StokWELLCLI.run n (StokWELLCLI.start (A:=A) clk lines)) with
  | CLI.Done _ => True
  | CLI.Stopped e => e = CLI.SystemExit 0 ∨ e = CLI.EOFError
  end.
Proof. apply session_kept. Qed.

(** X17.  Every turn of the menu loop reads a line, so a session ends once
    the input is used up: with more turns than lines, the run has ended,
    by [sys.exit(0)] or at the end of the input. *)
Theorem command_line_session_ends clk lines n :
  (List.length lines < n)%nat →
  ∃ e, fst (StokWELLCLI.run n (StokWELLCLI.start (A:=A) clk lines))
         = CLI.Stopped e ∧
       (e = CLI.SystemExit 0 ∨ e = CLI.EOFError).
Proof.
  intros Hn. pose proof (session_kept clk lines n) as [_ Hb].
  pose proof (reads_run n (StokWELLCLI.start clk lines)) as Hr.
  destruct (StokWELLCLI.run n _) as [[x|e] c']; cbn in *.
  - specialize (Hr x c' eq_refl). lia.
  - eauto.
Qed.

(** X18.  Throughout a session the user logged in, if any, is a registered
    user. *)
Theorem command_line_user_is_registered clk lines n :
  let c := snd (StokWELLCLI.run n (StokWELLCLI.start (A:=A) clk lines)) in
  match CLI.current_user c with
  | Some u => is_Some (users (data (CLI.env c)) !! u)
  | None => True
  end.
Proof.
  intros c. destruct (session_kept clk lines n) as [(Hcu & _) _].
  fold c in Hcu. destruct (CLI.current_user c); [now apply Hcu | exact I].
Qed.

(** X19.  Every amount a session puts on record is positive: no
    contribution with an amount [<= 0] reaches the ledger through the
    command line. *)
Theorem command_line_amounts_positive clk lines n :
  positive_contributions
    (data (CLI.env (snd (StokWELLCLI.run n
                           (StokWELLCLI.start (A:=A) clk lines))))).
Proof. apply (session_kept clk lines n). Qed.

(** X20.  Throughout a session the data file holds the dictionary in
    memory, or nothing has been written yet and the dictionary is
    empty. *)
Theorem command_line_file_in_sync clk lines n :
  in_sync (CLI.env (snd (StokWELLCLI.run n
                            (StokWELLCLI.start (A:=A) clk lines)))).
Proof. apply (session_kept clk lines n). Qed.

(** X21.  The command line offers no way to join: throughout a session the
    creator of a stokvel is its only member and is a registered user, and
    the stokvels a user lists are stokvels that user created. *)
Theorem command_line_creator_sole_member clk lines n :
  let d := data (CLI.env (snd (StokWELLCLI.run n
                                 (StokWELLCLI.start (A:=A) clk lines)))) in
  sole_member d ∧
  ∀ u usr s, users d !! u = Some usr → s ∈ User.stokvels usr →
    ∃ st, stokvels d !! s = Some st ∧ Stokvel.created_by st = u.
Proof.
  intros d.
  destruct (session_kept clk lines n)
    as [(_ & (clk' & ops & Hw) & _ & _ & Hsole & _) _].
  fold d in Hsole. split; [exact Hsole|].
  intros u usr s Hu Hs.
  assert (Hc : consistent d) by (unfold d; rewrite Hw; apply consistent_run).
  destruct (Hc u usr s Hu Hs) as (st & Hst & Hm).
  exists st. split; [exact Hst|].
  destruct (Hsole s st Hst) as [Hmem _]. rewrite Hmem in Hm.
  now apply list_elem_of_singleton in Hm.
Qed.

(** X22.  The command line never registers a user or creates a stokvel
    under the empty name. *)
Theorem command_line_no_empty_name clk lines n :
  let d := data (CLI.env (snd (StokWELLCLI.run n
                                 (StokWELLCLI.start (A:=A) clk lines)))) in
  users d !! "" = None ∧ stokvels d !! "" = None.
Proof.
  intros d. destruct (session_kept clk lines n)
    as [(_ & _ & _ & _ & _ & Hu & Hs) _]. split; assumption.
Qed.

(** X23.  Every state of the ledger in a session is a state of a run of
    ledger operations from the empty store; so it is balanced, free of
    orphaned references and free of duplicates. *)
Theorem command_line_states_are_runs clk lines n :
  let w := CLI.env (snd (StokWELLCLI.run n
                           (StokWELLCLI.start (A:=A) clk lines))) in
  reachable w ∧ balanced (data w) ∧ consistent (data w) ∧
  duplicate_free (data w).
Proof.
  intros w. destruct (session_kept clk lines n)
    as [(_ & (clk' & ops & Hw) & _) _].
  fold w in Hw. split; [exists clk', ops; exact Hw|]. rewrite Hw.
  split; [apply balanced_run|]. split; [apply consistent_run|].
  apply duplicate_free_run.
Qed.

End Sessions.

(** ** The properties above on the example states *)

(** The rendering of integers goes through [float]: exact up to [2 ^ 53],
    rounded to the nearest float above, and none beyond the largest
    float; the rendering of floats rounds to the nearest hundredth. *)
Lemma rendering_examples :
  format_2f (-5) = Some "-5.00" ∧
  format_2f (2 ^ 53 + 1) = Some "9007199254740992.00" ∧
  format_2f (10 ^ 400) = None ∧
  format_2f (2 ^ 1024 - 2 ^ 970) = None ∧
  is_Some (format_2f (2 ^ 1024 - 2 ^ 970 - 1)) ∧
  format_2f (1 / 8)%float = Some "0.12" ∧
  format_2f (3 / 8)%float = Some "0.38" ∧
  format_2f (- (1 / 1000))%float = Some "-0.00" ∧
  format_2f nan = Some "nan" ∧
  format_2f infinity = Some "inf".
Proof.
  repeat split; try (vm_compute; reflexivity).
  eexists. vm_compute. reflexivity.
Qed.


Lemma register_then_login_witness :
  fst (login_user (A:=Z) "alice" "pw1"
         (snd (register_user "alice" "pw1" (boot Examples.clk)))) =
    Returns (true, "Welcome back, " +:+ "alice" +:+ "!").
Proof.
  pose proof (register_then_login (A:=Z) (boot Examples.clk) "alice" "pw1"
                "pw1") as Hx.
  apply Hx. reflexivity.
Defined.

Lemma create_then_contribute_witness :
  fst (contribute "Holiday" 40 "alice"
         (snd (create_stokvel "Holiday" "alice" Examples.opened))) =
    Returns (true, "You contributed R" +:+ "40.00" +:+ " to "
                   +:+ "Holiday" +:+ ".").
Proof.
  pose proof (create_then_contribute Examples.opened "Holiday" "alice"
                Examples.alice 40 "40.00") as Hx.
  apply Hx; vm_compute; reflexivity.
Defined.


(** The session of [Plain.typed], on floats. *)
Lemma command_line_never_crashes_witness :
  ∃ r,
    fst (StokWELLCLI.run 17
           (StokWELLCLI.start (A:=float) Examples.clk Plain.typed)) = r ∧
    ∀ e, r = CLI.Stopped e → e = CLI.SystemExit 0 ∨ e = CLI.EOFError.
Proof.
  pose proof (command_line_never_crashes (A:=float) Examples.clk Plain.typed
                17) as Hx.
  eexists. split; [reflexivity|]. intros e He. rewrite He in Hx. exact Hx.
Defined.

Lemma command_line_session_ends_witness :
  ∃ e, fst (StokWELLCLI.run 17
              (StokWELLCLI.start (A:=float) Examples.clk Plain.typed))
         = CLI.Stopped e ∧
       (e = CLI.SystemExit 0 ∨ e = CLI.EOFError).
Proof.
  apply command_line_session_ends. cbn. lia.
Defined.

Lemma command_line_user_is_registered_witness :
  ∃ cu,
    CLI.current_user
      (snd (StokWELLCLI.run 17
              (StokWELLCLI.start (A:=float) Examples.clk Plain.typed))) = cu ∧
    ∀ u, cu = Some u →
      is_Some (users (data (CLI.env
                 (snd (StokWELLCLI.run 17
                         (StokWELLCLI.start (A:=float) Examples.clk
                            Plain.typed))))) !! u).
Proof.
  pose proof (command_line_user_is_registered (A:=float) Examples.clk
                Plain.typed 17) as Hx.
  cbv zeta in Hx.
  eexists. split; [reflexivity|]. intros u Hu. rewrite Hu in Hx. exact Hx.
Defined.

Lemma command_line_amounts_positive_witness :
  positive_contributions
    (data (CLI.env (snd (StokWELLCLI.run 17
                           (StokWELLCLI.start (A:=float) Examples.clk
                              Plain.typed))))).
Proof.
  exact (command_line_amounts_positive (A:=float) Examples.clk Plain.typed 17).
Defined.

Lemma command_line_file_in_sync_witness :
  in_sync (CLI.env (snd (StokWELLCLI.run 17
                            (StokWELLCLI.start (A:=float) Examples.clk
                               Plain.typed)))).
Proof.
  exact (command_line_file_in_sync (A:=float) Examples.clk Plain.typed 17).
Defined.

Lemma command_line_creator_sole_member_witness :
  sole_member
    (data (CLI.env (snd (StokWELLCLI.run 17
                           (StokWELLCLI.start (A:=float) Examples.clk
                              Plain.typed))))).
Proof.
  exact (proj1 (command_line_creator_sole_member (A:=float) Examples.clk
                  Plain.typed 17)).
Defined.

Lemma command_line_no_empty_name_witness :
  users (data (CLI.env (snd (StokWELLCLI.run 17
                               (StokWELLCLI.start (A:=float) Examples.clk
                                  Plain.typed))))) !! "" = None.
Proof.
  exact (proj1 (command_line_no_empty_name (A:=float) Examples.clk
                  Plain.typed 17)).
Defined.

Lemma command_line_states_are_runs_witness :
  balanced
    (data (CLI.env (snd (StokWELLCLI.run 17
                           (StokWELLCLI.start (A:=float) Examples.clk
                              Plain.typed))))).
Proof.
  exact (proj1 (proj2 (command_line_states_are_runs (A:=float) Examples.clk
                         Plain.typed 17))).
Defined.
